(** * The session core of the driver (src/session.hpp)

    A shallow embedding of [cass::Session]: the session state machine,
    contact-point resolution, pool bootstrap, request dispatch over the
    I/O workers and event processing.  The members that only forward to
    other objects ([on_run], [join], [ssl_session_new], [prepare],
    [set_keyspace], [set_load_balancing_policy]) are left out.

    The session's handlers run one at a time on the session-loop thread,
    so every handler is a function on the session, written in a small
    state monad.  Calls into collaborators whose code lives in other
    headers (futures, workers, resolver, policy, libuv) are recorded in a
    chronological list of effects.  Dereferencing a null pointer and
    indexing a vector out of range have no defined result in C++; the
    monad has a separate outcome for them. *)

From Stdlib Require Import Ascii String.
From stdpp Require Import base numbers list strings gmap sets sorting.

(** ** Machine integers *)

(** [int] is 32 bits wide and [size_t] 64 bits wide.  Conversions and
    arithmetic wrap around. *)
Definition INT_MIN : Z := (- 2 ^ 31)%Z.
Definition INT_MAX : Z := (2 ^ 31 - 1)%Z.
Definition wrap_int (z : Z) : Z := ((z + 2 ^ 31) `mod` 2 ^ 32 - 2 ^ 31)%Z.
Definition wrap_size (z : Z) : Z := (z `mod` 2 ^ 64)%Z.

(** ** Data *)

Inductive SessionState :=
| SESSION_STATE_NEW
| SESSION_STATE_CONNECTING
| SESSION_STATE_READY
| SESSION_STATE_DISCONNECTING
| SESSION_STATE_DISCONNECTED.

#[global] Instance SessionState_eq_dec : EqDecision SessionState.
Proof. solve_decision. Defined.

(** Heap objects (futures, requests) are known by their address;
    [None] in an [option ptr] is [nullptr]. *)
Definition ptr := nat.

Inductive ErrorSource := CASS_ERROR_SOURCE_LIBRARY.
Inductive ErrorCode :=
| CASS_ERROR_LIB_SESSION_STATE
| CASS_ERROR_LIB_NO_STREAMS
| CASS_ERROR_LIB_BAD_PARAMS.

Record Error := {
  source : ErrorSource;
  code : ErrorCode;
  message : string
}.

#[global] Instance ErrorSource_eq_dec : EqDecision ErrorSource.
Proof. solve_decision. Defined.
#[global] Instance ErrorCode_eq_dec : EqDecision ErrorCode.
Proof. solve_decision. Defined.
#[global] Instance Error_eq_dec : EqDecision Error.
Proof. solve_decision. Defined.

(** The configuration object; only the accessors the session reads. *)
Record Config := {
  port : Z;
  contact_points : list string;
  queue_size_io : Z;
  queue_size_event : Z;
  thread_count_io : Z;
  core_connections_per_host : Z
}.

(** Modelled from the spec: the I/O worker collaborator (io_worker.hpp is
    not among the sources).  The session only sees whether [execute]
    accepts a request (a worker may refuse, signaling local saturation),
    the return code of [init] and the shutdown-completion flag; calls to
    [add_pool_q], [execute], [shutdown_q] and [join] are recorded as
    effects. *)
Record IOWorker := {
  init_rc : Z;
  saturated : bool;
  is_shutdown_done_ : bool
}.

(** Modelled from the spec: the bounded cross-thread queue (mpmc_queue.hpp
    and the AsyncQueue wrapper are not among the sources).  Enqueue never
    blocks: it fails when the queue is full.  Dequeue takes the oldest
    item. *)
Record AsyncQueue (T : Type) := {
  capacity : nat;
  items : list T
}.
Arguments capacity {T} _.
Arguments items {T} _.

Definition queue_full {T} (q : AsyncQueue T) : bool :=
  bool_decide (capacity q ≤ length (items q)).

Definition enqueue {T} (x : T) (q : AsyncQueue T) : bool * AsyncQueue T :=
  if queue_full q then (false, q)
  else (true, {| capacity := capacity q; items := items q ++ [x] |}).

Definition dequeue {T} (q : AsyncQueue T) : option (T * AsyncQueue T) :=
  match items q with
  | [] => None
  | x :: rest => Some (x, {| capacity := capacity q; items := rest |})
  end.

Inductive Fault :=
| null_dereference
| out_of_range (index : Z) (size : nat).

#[global] Instance Fault_eq_dec : EqDecision Fault.
Proof. solve_decision. Defined.

(** ** The monad of handlers

    A handler takes the state of the world to a result and a new state,
    or has no defined behaviour ([Undefined], with the state reached). *)
Inductive Outcome (W A : Type) :=
| Returns (a : A) (w : W)
| Undefined (f : Fault) (w : W).
Arguments Returns {W A} a w.
Arguments Undefined {W A} f w.

Definition M (W A : Type) : Type := W → Outcome W A.

Definition ret {W A} (a : A) : M W A := λ w, Returns a w.

Definition bind {W A B} (m : M W A) (k : A → M W B) : M W B :=
  λ w, match m w with
       | Returns a w' => k a w'
       | Undefined f w' => Undefined f w'
       end.

Definition fault {W A} (f : Fault) : M W A := λ w, Undefined f w.

Definition modify {W} (f : W → W) : M W () := λ w, Returns () (f w).

Declare Scope session_scope.
Delimit Scope session_scope with session.
Notation "x <- m ;; k" := (bind m (λ x, k))
  (at level 100, m at next level, right associativity) : session_scope.
Notation "m ;;; k" := (bind m (λ _, k))
  (at level 100, right associativity) : session_scope.

(** The order of addresses ([operator<] of address.hpp), by which
    [std::set<Host>] keeps and visits its elements. *)
Class AddressOrder (Address : Type) := address_lt : Address → Address → bool.

Section session.

(** The address type of address.hpp, with the equality and order that
    [std::set<Host>] needs. *)
Context {Address : Type} `{Countable Address} `{AddressOrder Address}.

Record Host := { address : Address }.

#[global] Instance Host_eq_dec : EqDecision Host.
Proof. solve_decision. Defined.
#[global] Instance Host_countable : Countable Host :=
  inj_countable' address Build_Host
    (λ h, match h with Build_Host _ => eq_refl end).

(** [h1] does not come after [h2]: [h2 < h1] is false. *)
Definition host_before (h1 h2 : Host) : Prop :=
  address_lt (address h2) (address h1) = false.

#[global] Instance host_before_dec : RelDecision host_before.
Proof. intros h1 h2. unfold host_before. apply _. Defined.

(** The hosts of a set in the order in which a loop over the
    [std::set] visits them: ascending. *)
Definition hosts_in_order (hs : gset Host) : list Host :=
  merge_sort host_before (elements hs).

Inductive PayloadType := ON_CONNECTED | ON_SHUTDOWN.

(** An event.  A shutdown event carries no host ([None]). *)
Record Payload := {
  type : PayloadType;
  host : option Host
}.

(** What the resolver hands to its callback. *)
Record Resolver := {
  is_success : bool;
  resolver_address : Address;
  resolver_host : string;
  resolver_port : Z
}.

(** Calls that leave the session, in program order. *)
Inductive Effect :=
| uv_thread_create
| uv_async_send
| uv_stop
| Resolver_resolve (seed : string) (port_number : Z)
| add_pool_q (worker : nat) (h : Host)
| IOWorker_execute (worker : nat) (request : ptr) (accepted : bool)
| shutdown_q (worker : nat)
| IOWorker_join (worker : nat)
| Policy_init (known : gset Host)
| new_query_plan (request : ptr)
| set_error (future : ptr) (e : Error)
| set_result (future : ptr)
| operator_delete (object : ptr)
| fprintf_stderr (format : string) (name : string) (port_number : Z)
| call_init_pools.

#[global] Instance Effect_eq_dec : EqDecision Effect.
Proof. solve_decision. Defined.

Record Session := {
  state_ : SessionState;
  io_workers_ : list IOWorker;
  keyspace_ : string;
  connect_future_ : option ptr;
  shutdown_future_ : option ptr;
  hosts_ : gset Host;
  config_ : Config;
  request_future_queue_ : option (AsyncQueue ptr);
  event_queue_ : option (AsyncQueue Payload);
  pending_resolve_count_ : Z;
  pending_connections_count_ : Z;
  current_io_worker_ : Z
}.

(** The session together with what surrounds it: the effects so far and
    the next free heap address. *)
Record World := {
  session : Session;
  effects : list Effect;
  heap_top : ptr
}.


(** Field updates. *)
Definition set_state_ (v : SessionState) (s : Session) : Session :=
  Build_Session v (io_workers_ s) (keyspace_ s) (connect_future_ s)
    (shutdown_future_ s) (hosts_ s) (config_ s) (request_future_queue_ s)
    (event_queue_ s) (pending_resolve_count_ s)
    (pending_connections_count_ s) (current_io_worker_ s).
Definition set_io_workers_ (v : list IOWorker) (s : Session) : Session :=
  Build_Session (state_ s) v (keyspace_ s) (connect_future_ s)
    (shutdown_future_ s) (hosts_ s) (config_ s) (request_future_queue_ s)
    (event_queue_ s) (pending_resolve_count_ s)
    (pending_connections_count_ s) (current_io_worker_ s).
Definition set_keyspace_ (v : string) (s : Session) : Session :=
  Build_Session (state_ s) (io_workers_ s) v (connect_future_ s)
    (shutdown_future_ s) (hosts_ s) (config_ s) (request_future_queue_ s)
    (event_queue_ s) (pending_resolve_count_ s)
    (pending_connections_count_ s) (current_io_worker_ s).
Definition set_connect_future_ (v : option ptr) (s : Session) : Session :=
  Build_Session (state_ s) (io_workers_ s) (keyspace_ s) v
    (shutdown_future_ s) (hosts_ s) (config_ s) (request_future_queue_ s)
    (event_queue_ s) (pending_resolve_count_ s)
    (pending_connections_count_ s) (current_io_worker_ s).
Definition set_shutdown_future_ (v : option ptr) (s : Session) : Session :=
  Build_Session (state_ s) (io_workers_ s) (keyspace_ s) (connect_future_ s)
    v (hosts_ s) (config_ s) (request_future_queue_ s)
    (event_queue_ s) (pending_resolve_count_ s)
    (pending_connections_count_ s) (current_io_worker_ s).
Definition set_hosts_ (v : gset Host) (s : Session) : Session :=
  Build_Session (state_ s) (io_workers_ s) (keyspace_ s) (connect_future_ s)
    (shutdown_future_ s) v (config_ s) (request_future_queue_ s)
    (event_queue_ s) (pending_resolve_count_ s)
    (pending_connections_count_ s) (current_io_worker_ s).
Definition set_request_future_queue_ (v : option (AsyncQueue ptr))
    (s : Session) : Session :=
  Build_Session (state_ s) (io_workers_ s) (keyspace_ s) (connect_future_ s)
    (shutdown_future_ s) (hosts_ s) (config_ s) v
    (event_queue_ s) (pending_resolve_count_ s)
    (pending_connections_count_ s) (current_io_worker_ s).
Definition set_event_queue_ (v : option (AsyncQueue Payload))
    (s : Session) : Session :=
  Build_Session (state_ s) (io_workers_ s) (keyspace_ s) (connect_future_ s)
    (shutdown_future_ s) (hosts_ s) (config_ s) (request_future_queue_ s)
    v (pending_resolve_count_ s)
    (pending_connections_count_ s) (current_io_worker_ s).
Definition set_pending_resolve_count_ (v : Z) (s : Session) : Session :=
  Build_Session (state_ s) (io_workers_ s) (keyspace_ s) (connect_future_ s)
    (shutdown_future_ s) (hosts_ s) (config_ s) (request_future_queue_ s)
    (event_queue_ s) v
    (pending_connections_count_ s) (current_io_worker_ s).
Definition set_pending_connections_count_ (v : Z) (s : Session) : Session :=
  Build_Session (state_ s) (io_workers_ s) (keyspace_ s) (connect_future_ s)
    (shutdown_future_ s) (hosts_ s) (config_ s) (request_future_queue_ s)
    (event_queue_ s) (pending_resolve_count_ s)
    v (current_io_worker_ s).
Definition set_current_io_worker_ (v : Z) (s : Session) : Session :=
  Build_Session (state_ s) (io_workers_ s) (keyspace_ s) (connect_future_ s)
    (shutdown_future_ s) (hosts_ s) (config_ s) (request_future_queue_ s)
    (event_queue_ s) (pending_resolve_count_ s)
    (pending_connections_count_ s) v.

(** Primitive actions on the world. *)
Definition read {A} (field : Session → A) : M World A :=
  λ w, Returns (field (session w)) w.

Definition update (f : Session → Session) : M World () :=
  modify (λ w, Build_World (f (session w)) (effects w) (heap_top w)).

Definition emit (e : Effect) : M World () :=
  modify (λ w, Build_World (session w) (effects w ++ [e]) (heap_top w)).

Definition operator_new : M World ptr :=
  λ w, Returns (heap_top w)
         (Build_World (session w) (effects w) (S (heap_top w))).

(** [p->...] on a pointer that may be null. *)
Definition deref {A} (p : option A) : M World A :=
  match p with
  | Some x => ret x
  | None => fault null_dereference
  end.

(** [v[i]] on a vector, [i] a [size_t]. *)
Definition index {A} (v : list A) (i : Z) : M World A :=
  if bool_decide (0 ≤ i)%Z then
    match v !! Z.to_nat i with
    | Some x => ret x
    | None => fault (out_of_range i (length v))
    end
  else fault (out_of_range i (length v)).

(** A range-based [for] loop. *)
Fixpoint for_each {A} (l : list A) (body : A → M World ()) : M World () :=
  match l with
  | [] => ret ()
  | x :: rest => (body x ;;; for_each rest body)%session
  end.

(** [state_.compare_exchange_strong(expected, desired)]. *)
Definition compare_exchange_strong (expected desired : SessionState)
    : M World bool :=
  (current <- read state_ ;;
   if decide (current = expected)
   then (update (set_state_ desired) ;;; ret true)
   else ret false)%session.

(** ** The environment

    What the code in other headers decides: whether a contact point is a
    literal address ([Address::from_string]), the worker objects that
    [init] constructs, and the return codes of the two queues' [init]. *)
Variable from_string : string → Z → option Address.
Variable new_IOWorker : nat → IOWorker.
Variable request_queue_init_rc : Z.
Variable event_queue_init_rc : Z.

(** ** The session's operations *)

(** [Session()]. *)
Definition new_Session (config : Config) : Session := {|
  state_ := SESSION_STATE_NEW;
  io_workers_ := [];
  keyspace_ := "";
  connect_future_ := None;
  shutdown_future_ := None;
  hosts_ := ∅;
  config_ := config;
  request_future_queue_ := None;
  event_queue_ := None;
  pending_resolve_count_ := 0;
  pending_connections_count_ := 0;
  current_io_worker_ := 0
|}.

(** The worker loop of [init]: [n] workers still to construct, the next
    one being number [i]. *)
Fixpoint init_io_workers (n i : nat) : M World Z :=
  match n with
  | 0 => ret 0%Z
  | S n' =>
      let io_worker := new_IOWorker i in
      if decide (init_rc io_worker ≠ 0%Z) then ret (init_rc io_worker)
      else
        (update (λ s, set_io_workers_ (io_workers_ s ++ [io_worker]) s) ;;;
         init_io_workers n' (S i))%session
  end.

Definition init : M World Z :=
  (config <- read config_ ;;
   update (set_request_future_queue_
             (Some {| capacity := Z.to_nat (queue_size_io config);
                      items := [] |})) ;;;
   if decide (request_queue_init_rc ≠ 0%Z) then ret request_queue_init_rc
   else
     update (set_event_queue_
               (Some {| capacity := Z.to_nat (queue_size_event config);
                        items := [] |})) ;;;
     if decide (event_queue_init_rc ≠ 0%Z) then ret event_queue_init_rc
     else init_io_workers (Z.to_nat (thread_count_io config)) 0)%session.

Definition notify_connect_q (h : Host) : M World () :=
  (q <- read event_queue_ ;;
   q <- deref q ;;
   update (set_event_queue_
     (Some (snd (enqueue {| type := ON_CONNECTED; host := Some h |} q)))))%session.

Definition notify_shutdown_q : M World () :=
  (q <- read event_queue_ ;;
   q <- deref q ;;
   update (set_event_queue_
     (Some (snd (enqueue {| type := ON_SHUTDOWN; host := None |} q)))))%session.

Definition connect_error : Error := {|
  source := CASS_ERROR_SOURCE_LIBRARY;
  code := CASS_ERROR_LIB_SESSION_STATE;
  message := "connect has already been called"
|}.

(** [connect(const std::string& ks)].  The result is the pointer the
    function returns.  The back pointer [connect_future_->session] is a
    field of the future and is not kept here. *)
Definition connect (ks : string) : M World (option ptr) :=
  (future <- operator_new ;;
   update (set_connect_future_ (Some future)) ;;;
   exchanged <- compare_exchange_strong SESSION_STATE_NEW SESSION_STATE_CONNECTING ;;
   (if exchanged : bool then
      init ;;;
      update (set_keyspace_ ks) ;;;
      emit uv_thread_create ;;;
      emit uv_async_send
    else
      p <- read connect_future_ ;;
      p <- deref p ;;
      emit (set_error p connect_error) ;;;
      update (set_connect_future_ None)) ;;;
   read connect_future_)%session.

(** The indices of the workers, in the order a loop over [io_workers_]
    visits them. *)
Definition worker_indices (s : Session) : list nat :=
  seq 0 (length (io_workers_ s)).

(** [init_pools()].  Its first effect marks the call itself.  The host
    and worker counts are multiplied as [size_t] and stored in an [int];
    the second product is stored in an [int] again.  The loop over
    [hosts_] visits the hosts in ascending order. *)
Definition init_pools : M World () :=
  (emit call_init_pools ;;;
   s <- read id ;;
   let num_pools :=
     wrap_int (wrap_size (Z.of_nat (size (hosts_ s))
                          * Z.of_nat (length (io_workers_ s)))) in
   update (set_pending_connections_count_
             (wrap_int (num_pools * core_connections_per_host (config_ s)))) ;;;
   for_each (hosts_in_order (hosts_ s)) (λ h,
     for_each (worker_indices s) (λ i, emit (add_pool_q i h))))%session.

Definition shutdown_error : Error := {|
  source := CASS_ERROR_SOURCE_LIBRARY;
  code := CASS_ERROR_LIB_SESSION_STATE;
  message := "Session not connected"
|}.

(** [shutdown()]. *)
Definition shutdown : M World (option ptr) :=
  (future <- operator_new ;;
   update (set_shutdown_future_ (Some future)) ;;;
   from_ready <- compare_exchange_strong SESSION_STATE_READY SESSION_STATE_DISCONNECTING ;;
   exchanged <- (if from_ready : bool then ret true
                 else compare_exchange_strong SESSION_STATE_CONNECTING
                        SESSION_STATE_DISCONNECTING) ;;
   (if exchanged : bool then
      s <- read id ;;
      for_each (worker_indices s) (λ i, emit (shutdown_q i))
    else
      p <- read shutdown_future_ ;;
      p <- deref p ;;
      emit (set_error p shutdown_error) ;;;
      update (set_shutdown_future_ None)) ;;;
   read shutdown_future_)%session.

(** The loop of [on_connect] over the contact points. *)
Fixpoint on_connect_seeds (seeds : list string) (port_number : Z) : M World () :=
  match seeds with
  | [] => ret ()
  | seed :: rest =>
      (match from_string seed port_number with
       | Some a =>
           update (λ s, set_hosts_ ({[ Build_Host a ]} ∪ hosts_ s) s)
       | None =>
           update (λ s, set_pending_resolve_count_
                          (wrap_int (pending_resolve_count_ s + 1)) s) ;;;
           emit (Resolver_resolve seed port_number)
       end ;;;
       on_connect_seeds rest port_number)%session
  end.

(** [on_connect]: the callback of [async_connect_]. *)
Definition on_connect : M World () :=
  (config <- read config_ ;;
   on_connect_seeds (contact_points config) (port config) ;;;
   pending <- read pending_resolve_count_ ;;
   if decide (pending = 0%Z) then init_pools else ret ())%session.

(** [on_resolve]: the callback of one resolution. *)
Definition on_resolve (resolver : Resolver) : M World () :=
  (if is_success resolver then
     update (λ s, set_hosts_
                    ({[ Build_Host (resolver_address resolver) ]} ∪ hosts_ s) s) ;;;
     update (λ s, set_pending_resolve_count_
                    (wrap_int (pending_resolve_count_ s - 1)) s) ;;;
     pending <- read pending_resolve_count_ ;;
     if decide (pending = 0%Z) then init_pools else ret ()
   else
     emit (fprintf_stderr "Unable to resolve %s:%d\n"
             (resolver_host resolver) (resolver_port resolver)))%session.

(** The scan of [on_event] over the workers on a shutdown event: joins
    every worker whose flag is set and counts them. *)
Fixpoint join_done_workers (ws : list IOWorker) (i done_worker_count : nat)
    : M World nat :=
  match ws with
  | [] => ret done_worker_count
  | io_worker :: rest =>
      if is_shutdown_done_ io_worker then
        (emit (IOWorker_join i) ;;;
         join_done_workers rest (S i) (S done_worker_count))%session
      else join_done_workers rest (S i) done_worker_count
  end.

(** The body of the loop of [on_event], for one dequeued payload. *)
Definition on_event_payload (payload : Payload) : M World () :=
  match type payload with
  | ON_CONNECTED =>
      (update (λ s, set_pending_connections_count_
                      (wrap_int (pending_connections_count_ s - 1)) s) ;;;
       pending <- read pending_connections_count_ ;;
       if decide (pending = 0%Z) then
         known <- read hosts_ ;;
         emit (Policy_init known) ;;;
         update (set_state_ SESSION_STATE_READY) ;;;
         p <- read connect_future_ ;;
         p <- deref p ;;
         emit (set_result p) ;;;
         update (set_connect_future_ None)
       else ret ())%session
  | ON_SHUTDOWN =>
      (ws <- read io_workers_ ;;
       done_worker_count <- join_done_workers ws 0 0 ;;
       if decide (done_worker_count = length ws) then
         p <- read shutdown_future_ ;;
         p <- deref p ;;
         emit (set_result p) ;;;
         update (set_shutdown_future_ None) ;;;
         update (set_state_ SESSION_STATE_DISCONNECTED) ;;;
         emit uv_stop
       else ret ())%session
  end.

(** The loop [while (event_queue_->dequeue(payload))]: [queued] is the
    content of the queue, each round takes its first item out. *)
Fixpoint on_event_loop (capacity_ : nat) (queued : list Payload) : M World () :=
  match queued with
  | [] => ret ()
  | payload :: rest =>
      (update (set_event_queue_
                 (Some {| capacity := capacity_; items := rest |})) ;;;
       on_event_payload payload ;;;
       on_event_loop capacity_ rest)%session
  end.

(** [on_event]: the callback of the event queue. *)
Definition on_event : M World () :=
  (q <- read event_queue_ ;;
   q <- deref q ;;
   on_event_loop (capacity q) (items q))%session.

Definition queue_full_error : Error := {|
  source := CASS_ERROR_SOURCE_LIBRARY;
  code := CASS_ERROR_LIB_NO_STREAMS;
  message := "request queue full"
|}.

(** [execute(RequestFuture* request_future)]. *)
Definition execute (request_future : ptr) : M World () :=
  (q <- read request_future_queue_ ;;
   q <- deref q ;;
   let attempt := enqueue request_future q in
   update (set_request_future_queue_ (Some (snd attempt))) ;;;
   if fst attempt then ret ()
   else
     emit (set_error request_future queue_full_error) ;;;
     emit (operator_delete request_future))%session.

Definition workers_busy_error : Error := {|
  source := CASS_ERROR_SOURCE_LIBRARY;
  code := CASS_ERROR_LIB_BAD_PARAMS;
  message := "All workers are busy"
|}.

(** The inner loop of [on_execute]: [while (remaining != 0)].  The
    result is the value of [remaining] when the loop is left: not zero
    after [break], zero when the loop ran out. *)
Fixpoint dispatch (remaining : nat) (start : Z) (request_future : ptr)
    : M World nat :=
  match remaining with
  | 0 => ret 0
  | S remaining' =>
      (ws <- read io_workers_ ;;
       io_worker <- index ws start ;;
       let accepted := negb (saturated io_worker) in
       emit (IOWorker_execute (Z.to_nat start) request_future accepted) ;;;
       if accepted then
         update (set_current_io_worker_
                   (wrap_int (wrap_size (start + 1) `mod` Z.of_nat (length ws)))) ;;;
         ret remaining
       else dispatch remaining' (wrap_size (start + 1)) request_future)%session
  end.

(** The body of the outer loop of [on_execute], for one dequeued
    request. *)
Definition on_execute_request (request_future : ptr) : M World () :=
  (emit (new_query_plan request_future) ;;;
   s <- read id ;;
   let start := wrap_size (current_io_worker_ s) in
   remaining <- dispatch (length (io_workers_ s)) start request_future ;;
   if decide (remaining = 0) then
     emit (set_error request_future workers_busy_error)
   else ret ())%session.

(** The loop [while (request_future_queue_->dequeue(request_future))]. *)
Fixpoint on_execute_loop (capacity_ : nat) (queued : list ptr) : M World () :=
  match queued with
  | [] => ret ()
  | request_future :: rest =>
      (update (set_request_future_queue_
                 (Some {| capacity := capacity_; items := rest |})) ;;;
       on_execute_request request_future ;;;
       on_execute_loop capacity_ rest)%session
  end.

(** [on_execute]: the callback of the request queue. *)
Definition on_execute : M World () :=
  (q <- read request_future_queue_ ;;
   q <- deref q ;;
   on_execute_loop (capacity q) (items q))%session.

End session.

(** ** The entry point that builds a request *)

Section requests.

Context {Address : Type} `{Countable Address}.

(** [execute(Statement* statement)]: a message and a request future are
    allocated, the request is handed to [execute], and the pointer to the
    request future is returned.  What the two objects hold (opcode, body)
    belongs to other headers; here they are their addresses. *)
Definition execute_statement (statement : ptr)
    : M (World (Address := Address)) ptr :=
  (message <- operator_new ;;
   request_future <- operator_new ;;
   execute request_future ;;;
   ret request_future)%session.

End requests.

(** ** A concrete environment, for the examples

    Addresses are kept as text.  A contact point counts as a literal
    address when it is made of digits, dots and colons only. *)
Definition address_char (c : ascii) : bool :=
  let n := nat_of_ascii c in
  ((48 <=? n)%nat && (n <=? 58)%nat) || (n =? 46)%nat.

#[global] Instance string_order : AddressOrder string := String.ltb.

Definition example_from_string (seed : string) (port_number : Z)
    : option string :=
  if forallb address_char (list_ascii_of_string seed) then Some seed else None.

Definition free_worker : IOWorker :=
  {| init_rc := 0; saturated := false; is_shutdown_done_ := false |}.
Definition busy_worker : IOWorker :=
  {| init_rc := 0; saturated := true; is_shutdown_done_ := false |}.

Definition example_config (seeds : list string) : Config := {|
  port := 9042;
  contact_points := seeds;
  queue_size_io := 2;
  queue_size_event := 8;
  thread_count_io := 1;
  core_connections_per_host := 1
|}.

(** A session that has been initialised: in state [st], its connect
    future at address 0, with the given contact points, workers, queued
    requests and cursor. *)
Definition example_session (st : SessionState) (seeds : list string)
    (ws : list IOWorker) (requests : list ptr) (cursor : Z)
    : Session (Address := string) := {|
  state_ := st;
  io_workers_ := ws;
  keyspace_ := "ks";
  connect_future_ := Some 0;
  shutdown_future_ := None;
  hosts_ := ∅;
  config_ := example_config seeds;
  request_future_queue_ := Some {| capacity := 2; items := requests |};
  event_queue_ := Some {| capacity := 8; items := [] |};
  pending_resolve_count_ := 0;
  pending_connections_count_ := 0;
  current_io_worker_ := cursor
|}.

Definition world_of (s : Session (Address := string)) : World :=
  {| session := s; effects := []; heap_top := 1 |}.

Definition connected (name : string) : Payload (Address := string) :=
  {| type := ON_CONNECTED; host := Some (Build_Host name) |}.

(** The outcome of a resolution of [name]: its address when it
    succeeded. *)
Definition resolved (name : string) (outcome : option string)
    : Resolver (Address := string) := {|
  is_success := bool_decide (is_Some outcome);
  resolver_address := default "" outcome;
  resolver_host := name;
  resolver_port := 9042
|}.

(** ** Vocabulary of the statements *)

Section vocabulary.

Context {Address : Type} `{Countable Address} `{AddressOrder Address}.
Implicit Types (w : World (Address := Address)).
Implicit Types (s : Session (Address := Address)).
Implicit Types (es : list (Effect (Address := Address))).

(** The world after further effects. *)
Definition add_effects es w : World :=
  {| session := session w; effects := effects w ++ es; heap_top := heap_top w |}.

(** The world with the session changed. *)
Definition with_session (f : Session → Session) w : World :=
  {| session := f (session w); effects := effects w; heap_top := heap_top w |}.

(** The offers of request [r] that workers [i], [i+1], ... (there are
    [k] of them) turn down. *)
Definition refusals (r : ptr) (i k : nat) : list (Effect (Address := Address)) :=
  (λ j, IOWorker_execute j r false) <$> seq i k.

(** What a dispatcher leaves in the effects when it hands the requests
    [rs] one by one to workers that all accept, starting at worker [c]
    of [n] and moving on by one worker per request. *)
Fixpoint rotation (c n : nat) (rs : list ptr)
    : list (Effect (Address := Address)) :=
  match rs with
  | [] => []
  | r :: rest =>
      new_query_plan r :: IOWorker_execute c r true
        :: rotation (S c `mod` n) n rest
  end.

(** The requests for pools that [init_pools] sends for a session: host
    by host, and for each host worker by worker. *)
Definition pool_requests s : list (Effect (Address := Address)) :=
  h ← hosts_in_order (hosts_ s); (λ i, add_pool_q i h) <$> worker_indices s.

(** How often [init_pools] was called, read off the effects. *)
Definition init_pools_calls w : nat :=
  length (filter (λ e, e = call_init_pools) (effects w)).

(** The effects of failing each of the requests [rs] after all [n]
    workers refused it. *)
Definition all_refused (n : nat) (rs : list ptr)
    : list (Effect (Address := Address)) :=
  r ← rs; new_query_plan r :: refusals r 0 n ++ [set_error r workers_busy_error].

Variable from_string : string → Z → option Address.

(** The hosts of the contact points that are literal addresses, and the
    contact points that are names to resolve. *)
Definition literal_hosts (seeds : list string) (port_number : Z) : list Host :=
  omap (λ seed, Build_Host <$> from_string seed port_number) seeds.

Definition symbolic_names (seeds : list string) (port_number : Z) : list string :=
  filter (λ seed, from_string seed port_number = None) seeds.

(** The world after the loop of [on_connect] over the contact points
    [seeds]: the literal ones are among the hosts, the others are counted
    and handed to the resolver. *)
Definition seeded (seeds : list string) (port_number : Z) w : World :=
  with_session
    (λ s, set_pending_resolve_count_
            (wrap_int (pending_resolve_count_ s
                       + Z.of_nat (length (symbolic_names seeds port_number))))
            (set_hosts_
               (list_to_set (literal_hosts seeds port_number) ∪ hosts_ s) s))
    (add_effects
       ((λ seed, Resolver_resolve seed port_number)
          <$> symbolic_names seeds port_number) w).

(** A wake-up of the session loop by the event queue: the workers have
    called [notify_connect_q] for the hosts of [batch], one connection
    each, and [on_event] runs. *)
Definition wake_up (batch : list Host) : M (World (Address := Address)) () :=
  (for_each batch notify_connect_q ;;; on_event)%session.

(** The wake-ups for a sequence of batches of notifications. *)
Definition wake_ups (batches : list (list Host))
    : M (World (Address := Address)) () :=
  for_each batches wake_up.

(** A connect attempt as the session loop sees it: [on_connect], then
    the callbacks of the resolutions in the order in which they
    complete. *)
Definition attempt (completions : list Resolver)
    : M (World (Address := Address)) () :=
  (on_connect from_string ;;; for_each completions on_resolve)%session.

End vocabulary.

Section more_vocabulary.

Context {Address : Type} `{Countable Address}.
Implicit Types (s : Session (Address := Address)).

(** The indices of the workers whose shutdown-completion flag is set, in
    the order of the collection, counted from [i]. *)
Fixpoint done_workers (ws : list IOWorker) (i : nat) : list nat :=
  match ws with
  | [] => []
  | x :: rest =>
      if is_shutdown_done_ x then i :: done_workers rest (S i)
      else done_workers rest (S i)
  end.

(** What [init] leaves alone: every field but the two queues and the
    workers. *)
Definition init_keeps s s' : Prop :=
  state_ s' = state_ s ∧ keyspace_ s' = keyspace_ s
  ∧ connect_future_ s' = connect_future_ s
  ∧ shutdown_future_ s' = shutdown_future_ s
  ∧ hosts_ s' = hosts_ s ∧ config_ s' = config_ s
  ∧ pending_resolve_count_ s' = pending_resolve_count_ s
  ∧ pending_connections_count_ s' = pending_connections_count_ s
  ∧ current_io_worker_ s' = current_io_worker_ s.

End more_vocabulary.

(** More workers, events and sessions for the examples. *)
Definition done_worker : IOWorker :=
  {| init_rc := 0; saturated := false; is_shutdown_done_ := true |}.
Definition failing_worker : IOWorker :=
  {| init_rc := -1; saturated := false; is_shutdown_done_ := false |}.

Definition shutdown_event : Payload (Address := string) :=
  {| type := ON_SHUTDOWN; host := None |}.

(** A session as its constructor leaves it, configured for three
    workers. *)
Definition fresh_world : World (Address := string) :=
  {| session := new_Session
                  {| port := 9042; contact_points := [];
                     queue_size_io := 2; queue_size_event := 8;
                     thread_count_io := 3; core_connections_per_host := 1 |};
     effects := []; heap_top := 0 |}.

(** A CONNECTING session that waits for two connections, both reported
    in the event queue. *)
Definition awaiting_two : World (Address := string) :=
  with_session
    (λ s, set_event_queue_
            (Some {| capacity := 8;
                     items := [connected "127.0.0.1"; connected "127.0.0.2"] |})
            (set_pending_connections_count_ 2 s))
    (world_of (example_session SESSION_STATE_CONNECTING []
                 [free_worker; free_worker] [] 0)).

(** A CONNECTING session that waits for [n] connections, its event
    queue empty. *)
Definition awaiting (n : Z) : World (Address := string) :=
  with_session (set_pending_connections_count_ n)
    (world_of (example_session SESSION_STATE_CONNECTING []
                 [free_worker; free_worker] [] 0)).

(** A DISCONNECTING session with the given workers, its shutdown future
    at address 5 and the given events in the queue. *)
Definition disconnecting (ws : list IOWorker)
    (events : list (Payload (Address := string))) : World (Address := string) :=
  with_session
    (λ s, set_shutdown_future_ (Some 5)
            (set_event_queue_ (Some {| capacity := 8; items := events |}) s))
    (world_of (example_session SESSION_STATE_DISCONNECTING [] ws [] 0)).

(** * Properties *)

(** ** Arithmetic of the wrapped integers *)

Lemma wrap_int_small (z : Z) :
  (INT_MIN ≤ z ≤ INT_MAX)%Z → wrap_int z = z.
Proof.
  unfold wrap_int, INT_MIN, INT_MAX. intros Hz.
  rewrite Z.mod_small; lia.
Qed.

Lemma wrap_int_range (z : Z) : (INT_MIN ≤ wrap_int z ≤ INT_MAX)%Z.
Proof.
  unfold wrap_int, INT_MIN, INT_MAX.
  pose proof (Z.mod_pos_bound (z + 2 ^ 31) (2 ^ 32)) as Hb. lia.
Qed.

Lemma wrap_int_idemp_sub (z d : Z) :
  wrap_int (wrap_int z - d) = wrap_int (z - d).
Proof.
  unfold wrap_int.
  replace ((z + 2 ^ 31) `mod` 2 ^ 32 - 2 ^ 31 - d + 2 ^ 31)%Z
    with ((z + 2 ^ 31) `mod` 2 ^ 32 + - d)%Z by lia.
  rewrite Zplus_mod_idemp_l. do 2 f_equal. lia.
Qed.

Lemma wrap_int_zero (z : Z) :
  wrap_int z = 0%Z → (z `mod` 2 ^ 32 = 0)%Z.
Proof.
  unfold wrap_int. intros Hz.
  assert (Hm : ((z + 2 ^ 31) `mod` 2 ^ 32 = 2 ^ 31)%Z) by lia.
  replace z with ((z + 2 ^ 31) + - 2 ^ 31)%Z by lia.
  rewrite <- Zplus_mod_idemp_l, Hm. reflexivity.
Qed.

Lemma wrap_size_small (z : Z) : (0 ≤ z < 2 ^ 64)%Z → wrap_size z = z.
Proof. unfold wrap_size. intros Hz. apply Z.mod_small. lia. Qed.

(** Runs the primitive actions of the monad in the goal. *)
Ltac run_prims :=
  cbv beta iota delta [bind ret read update modify emit deref operator_new
                       fault compare_exchange_strong id];
  cbn [session effects heap_top].

(** Closes a goal that differs only in how the effects are grouped. *)
Ltac same_world :=
  unfold with_session, add_effects; cbn [session effects heap_top];
  rewrite <- ?app_assoc; reflexivity.

Section facts.

Context {Address : Type} `{Countable Address} `{AddressOrder Address}.
Implicit Types (w : World (Address := Address)).
Implicit Types (s : Session (Address := Address)).
Implicit Types (es : list (Effect (Address := Address))).

(** Setting a field to the value it has changes nothing. *)
Lemma set_request_future_queue_same s q :
  request_future_queue_ s = q → set_request_future_queue_ q s = s.
Proof. destruct s; simpl; intros ->; reflexivity. Qed.

Lemma dequeue_cons {T} (n : nat) (x : T) (rest : list T) :
  dequeue {| capacity := n; items := x :: rest |}
  = Some (x, {| capacity := n; items := rest |}).
Proof. reflexivity. Qed.

Lemma enqueue_full {T} (x : T) (q : AsyncQueue T) :
  queue_full q = true → enqueue x q = (false, q).
Proof. unfold enqueue. intros ->. reflexivity. Qed.

(** ** [execute] on a full queue *)

(** C9: an [execute] made while the request queue is full returns (the
    enqueue fails, nothing waits), resolves the request's completion
    handle with the error "request queue full" and then destroys the
    request.  These are its only two effects: the queue and the rest of
    the session are as before, so the request is neither retried nor kept
    anywhere. *)
Theorem execute_queue_full w (q : AsyncQueue ptr) (request_future : ptr) :
  request_future_queue_ (session w) = Some q →
  queue_full q = true →
  execute request_future w
  = Returns ()
      {| session := session w;
         effects := effects w ++ [set_error request_future queue_full_error;
                                  operator_delete request_future];
         heap_top := heap_top w |}
  ∧ message queue_full_error = "request queue full".
Proof.
  intros Hq Hfull. split; [|reflexivity].
  unfold execute. run_prims.
  rewrite Hq. rewrite (enqueue_full _ _ Hfull). cbn [fst snd].
  rewrite (set_request_future_queue_same _ _ Hq).
  rewrite <- app_assoc. reflexivity.
Qed.

(** ** [connect] and [shutdown] in the wrong state *)

(** What [connect] does on a session that is not NEW: the fresh future
    gets the error, the pointer [connect_future_] is cleared, and the
    cleared pointer is what the function returns. *)
Lemma connect_not_new (new_IOWorker : nat → IOWorker) (rc1 rc2 : Z)
    (ks : string) w :
  state_ (session w) ≠ SESSION_STATE_NEW →
  connect new_IOWorker rc1 rc2 ks w
  = Returns None
      {| session := set_connect_future_ None (session w);
         effects := effects w ++ [set_error (heap_top w) connect_error];
         heap_top := S (heap_top w) |}.
Proof.
  intros Hstate.
  unfold connect. run_prims. cbn.
  destruct (decide (state_ (session w) = SESSION_STATE_NEW)) as [|_];
    [contradiction|].
  reflexivity.
Qed.

(** What [shutdown] does on a session that is neither READY nor
    CONNECTING: as [connect] above, the null pointer is returned. *)
Lemma shutdown_not_connected w :
  state_ (session w) ≠ SESSION_STATE_READY →
  state_ (session w) ≠ SESSION_STATE_CONNECTING →
  shutdown w
  = Returns None
      {| session := set_shutdown_future_ None (session w);
         effects := effects w ++ [set_error (heap_top w) shutdown_error];
         heap_top := S (heap_top w) |}.
Proof.
  intros Hready Hconnecting.
  unfold shutdown. run_prims. cbn.
  destruct (decide (state_ (session w) = SESSION_STATE_READY)) as [|_];
    [contradiction|]. cbn.
  destruct (decide (state_ (session w) = SESSION_STATE_CONNECTING)) as [|_];
    [contradiction|].
  reflexivity.
Qed.

(** ** A failed resolution *)

(** A failed resolution only writes to stderr: the session, and with it
    [pending_resolve_count_], stays as it was. *)
Lemma on_resolve_failure (resolver : Resolver) w :
  is_success resolver = false →
  on_resolve resolver w
  = Returns ()
      (add_effects
         [fprintf_stderr "Unable to resolve %s:%d\n"
            (resolver_host resolver) (resolver_port resolver)] w).
Proof.
  intros Hfail. unfold on_resolve. rewrite Hfail. reflexivity.
Qed.

(** ** Dispatch *)

Lemma index_in_range {A} (v : list A) (i : nat) (x : A) w :
  v !! i = Some x → index v (Z.of_nat i) w = Returns x w.
Proof.
  intros Hx. unfold index.
  rewrite bool_decide_eq_true_2 by lia.
  rewrite Nat2Z.id, Hx. reflexivity.
Qed.

Lemma index_past_end {A} (v : list A) (i : nat) w :
  length v ≤ i →
  index v (Z.of_nat i) w = Undefined (out_of_range (Z.of_nat i) (length v)) w.
Proof.
  intros Hi. unfold index.
  rewrite bool_decide_eq_true_2 by lia.
  rewrite Nat2Z.id, (lookup_ge_None_2 v i Hi). reflexivity.
Qed.

(** One round of the loop with a worker that refuses: the probe index
    goes up by one, without regard to the size of the collection. *)
Lemma dispatch_refused (remaining i : nat) (r : ptr) (x : IOWorker) w :
  io_workers_ (session w) !! i = Some x →
  saturated x = true →
  (Z.of_nat i + 1 < 2 ^ 64)%Z →
  dispatch (S remaining) (Z.of_nat i) r w
  = dispatch remaining (Z.of_nat (S i)) r
      (add_effects [IOWorker_execute i r false] w).
Proof.
  intros Hx Hsat Hi. cbn [dispatch]. run_prims.
  rewrite (index_in_range _ _ _ _ Hx), Hsat. cbn [negb].
  rewrite Nat2Z.id, wrap_size_small by lia.
  replace (Z.of_nat i + 1)%Z with (Z.of_nat (S i)) by lia.
  reflexivity.
Qed.

(** One round of the loop with a worker that accepts. *)
Lemma dispatch_accepted (remaining i : nat) (r : ptr) (x : IOWorker) w :
  io_workers_ (session w) !! i = Some x →
  saturated x = false →
  dispatch (S remaining) (Z.of_nat i) r w
  = Returns (S remaining)
      (with_session
         (set_current_io_worker_
            (wrap_int (wrap_size (Z.of_nat i + 1)
                       `mod` Z.of_nat (length (io_workers_ (session w))))))
         (add_effects [IOWorker_execute i r true] w)).
Proof.
  intros Hx Hfree. cbn [dispatch]. run_prims.
  rewrite (index_in_range _ _ _ _ Hx), Hfree. cbn [negb].
  rewrite Nat2Z.id. reflexivity.
Qed.

(** One round of the loop with the probe index past the last worker. *)
Lemma dispatch_past_end (remaining i : nat) (r : ptr) w :
  length (io_workers_ (session w)) ≤ i →
  dispatch (S remaining) (Z.of_nat i) r w
  = Undefined (out_of_range (Z.of_nat i) (length (io_workers_ (session w)))) w.
Proof.
  intros Hi. cbn [dispatch]. run_prims.
  rewrite (index_past_end _ _ _ Hi). reflexivity.
Qed.

Lemma add_effects_app es1 es2 w :
  add_effects es2 (add_effects es1 w) = add_effects (es1 ++ es2) w.
Proof. unfold add_effects. cbn. rewrite app_assoc. reflexivity. Qed.

Lemma add_effects_nil w : add_effects [] w = w.
Proof. destruct w. unfold add_effects. cbn. rewrite app_nil_r. reflexivity. Qed.

(** [k] refusals in a row, by workers [i .. i+k-1]. *)
Lemma dispatch_refusals (k remaining i : nat) (r : ptr) w :
  (∀ j x, i ≤ j < i + k → io_workers_ (session w) !! j = Some x →
          saturated x = true) →
  i + k ≤ length (io_workers_ (session w)) →
  (Z.of_nat (length (io_workers_ (session w))) < 2 ^ 64)%Z →
  dispatch (k + remaining) (Z.of_nat i) r w
  = dispatch remaining (Z.of_nat (i + k)) r (add_effects (refusals r i k) w).
Proof.
  revert i w. induction k as [|k IH]; intros i w Hsat Hlen Hsize.
  - cbn [Nat.add refusals seq fmap list_fmap].
    rewrite add_effects_nil, Nat.add_0_r. reflexivity.
  - destruct (lookup_lt_is_Some_2 (io_workers_ (session w)) i) as [x Hx];
      [lia|].
    cbn [Nat.add].
    assert (Hx_sat : saturated x = true) by (apply (Hsat i); [lia|exact Hx]).
    rewrite (dispatch_refused _ _ _ x w Hx Hx_sat) by lia.
    rewrite IH; cbn [add_effects session]; [| |lia|lia].
    + rewrite add_effects_app.
      replace (S i + k) with (i + S k) by lia.
      reflexivity.
    + intros j y Hj Hy. apply (Hsat j); [lia|exact Hy].
Qed.

(** The request goes to the first free worker at or after the cursor,
    when there is one before the end of the collection: the workers from
    the cursor up to it are asked in order, and the cursor moves to just
    past it, modulo the number of workers. *)
Lemma on_execute_request_forward (r : ptr) (c j : nat) (x : IOWorker) w :
  current_io_worker_ (session w) = Z.of_nat c →
  c ≤ j →
  (∀ i y, c ≤ i < j → io_workers_ (session w) !! i = Some y →
          saturated y = true) →
  io_workers_ (session w) !! j = Some x →
  saturated x = false →
  (Z.of_nat (length (io_workers_ (session w))) ≤ INT_MAX)%Z →
  on_execute_request r w
  = Returns ()
      (with_session
         (set_current_io_worker_
            (Z.of_nat (S j `mod` length (io_workers_ (session w)))))
         (add_effects
            (new_query_plan r :: refusals r c (j - c)
               ++ [IOWorker_execute j r true]) w)).
Proof.
  intros Hc Hcj Hsat Hx Hfree Hsize. unfold INT_MAX in Hsize.
  pose proof (lookup_lt_Some _ _ _ Hx) as Hj.
  unfold on_execute_request. run_prims.
  rewrite Hc, wrap_size_small by lia.
  replace (length (io_workers_ (session w)))
    with ((j - c) + S (length (io_workers_ (session w)) - S (j - c))) at 1 by lia.
  rewrite dispatch_refusals; cbn [session]; [| |lia|lia].
  - replace (c + (j - c)) with j by lia.
    rewrite (dispatch_accepted _ _ _ x) by assumption.
    cbn [add_effects with_session session effects heap_top].
    rewrite wrap_size_small by lia.
    replace (Z.of_nat j + 1)%Z with (Z.of_nat (S j)) by lia.
    rewrite <- Nat2Z.inj_mod.
    rewrite wrap_int_small.
    + destruct (decide _) as [Hzero|_]; [discriminate Hzero|].
      same_world.
    + pose proof (Nat.mod_upper_bound (S j) (length (io_workers_ (session w)))).
      unfold INT_MIN, INT_MAX. lia.
  - intros i y Hi Hy. apply (Hsat i); [lia|exact Hy].
Qed.

(** Every worker refuses and the cursor is at the first worker: all
    workers are asked once, in order, and the request is failed. *)
Lemma on_execute_request_all_refuse (r : ptr) w :
  current_io_worker_ (session w) = 0%Z →
  Forall (λ x, saturated x = true) (io_workers_ (session w)) →
  (Z.of_nat (length (io_workers_ (session w))) < 2 ^ 64)%Z →
  on_execute_request r w
  = Returns ()
      (add_effects
         (new_query_plan r
            :: refusals r 0 (length (io_workers_ (session w)))
            ++ [set_error r workers_busy_error]) w).
Proof.
  intros Hc Hsat Hsize.
  unfold on_execute_request. run_prims.
  rewrite Hc, wrap_size_small by lia.
  replace (length (io_workers_ (session w)))
    with (length (io_workers_ (session w)) + 0) at 1 by lia.
  change 0%Z with (Z.of_nat 0).
  rewrite dispatch_refusals; cbn [session]; [| |lia|lia].
  - cbn [dispatch]. run_prims.
    destruct (decide (0 = 0)) as [_|Hne]; [|contradiction].
    same_world.
  - intros i y _ Hy. exact (proj1 (Forall_lookup _ _) Hsat i y Hy).
Qed.

(** No worker from the cursor to the end of the collection is free, and
    the cursor is not at the first worker: after the last worker has
    refused, the loop reads [io_workers_] at the index equal to its
    size. *)
Lemma on_execute_request_past_end (r : ptr) (c : nat) w :
  current_io_worker_ (session w) = Z.of_nat c →
  0 < c ≤ length (io_workers_ (session w)) →
  (∀ i y, c ≤ i → io_workers_ (session w) !! i = Some y →
          saturated y = true) →
  (Z.of_nat (length (io_workers_ (session w))) < 2 ^ 64)%Z →
  on_execute_request r w
  = Undefined
      (out_of_range (Z.of_nat (length (io_workers_ (session w))))
         (length (io_workers_ (session w))))
      (add_effects
         (new_query_plan r
            :: refusals r c (length (io_workers_ (session w)) - c)) w).
Proof.
  intros Hc Hrange Hsat Hsize.
  unfold on_execute_request. run_prims.
  rewrite Hc, wrap_size_small by lia.
  replace (length (io_workers_ (session w)))
    with ((length (io_workers_ (session w)) - c) + S (c - 1)) at 1 by lia.
  rewrite dispatch_refusals; cbn [session]; [| |lia|lia].
  - replace (c + (length (io_workers_ (session w)) - c))
      with (length (io_workers_ (session w))) by lia.
    rewrite dispatch_past_end by (cbn; lia).
    same_world.
  - intros i y Hi Hy. apply (Hsat i); [lia|exact Hy].
Qed.

Lemma set_current_io_worker_same s c :
  current_io_worker_ s = c → set_current_io_worker_ c s = s.
Proof. destruct s; simpl; intros ->; reflexivity. Qed.

Lemma world_eta w :
  {| session := session w; effects := effects w; heap_top := heap_top w |} = w.
Proof. destruct w; reflexivity. Qed.

(** The outer loop when every worker refuses every request. *)
Lemma on_execute_loop_all_refuse (cap : nat) (rs : list ptr) w :
  request_future_queue_ (session w) = Some {| capacity := cap; items := rs |} →
  current_io_worker_ (session w) = 0%Z →
  Forall (λ x, saturated x = true) (io_workers_ (session w)) →
  (Z.of_nat (length (io_workers_ (session w))) < 2 ^ 64)%Z →
  on_execute_loop cap rs w
  = Returns ()
      (with_session
         (set_request_future_queue_ (Some {| capacity := cap; items := [] |}))
         (add_effects (all_refused (length (io_workers_ (session w))) rs) w)).
Proof.
  revert w. induction rs as [|r rest IH]; intros w Hq Hc Hsat Hsize.
  - cbn [on_execute_loop]. unfold ret, with_session, add_effects, all_refused.
    cbn. rewrite app_nil_r, (set_request_future_queue_same _ _ Hq), world_eta.
    reflexivity.
  - cbn [on_execute_loop]. run_prims.
    match goal with
    | |- context [on_execute_request r ?w1] =>
        rewrite (on_execute_request_all_refuse r w1 Hc Hsat Hsize)
    end.
    cbn [session].
    rewrite IH; cbn [session add_effects]; try assumption; [|reflexivity].
    unfold with_session, add_effects, all_refused.
    cbn [session effects heap_top mbind list_bind].
    rewrite <- !app_assoc. reflexivity.
Qed.

(** The outer loop when every worker accepts every request: the requests
    go round the workers, one each, starting at the cursor. *)
Lemma on_execute_loop_rotation (cap : nat) (rs : list ptr) (c : nat) w :
  request_future_queue_ (session w) = Some {| capacity := cap; items := rs |} →
  current_io_worker_ (session w) = Z.of_nat c →
  c < length (io_workers_ (session w)) →
  Forall (λ x, saturated x = false) (io_workers_ (session w)) →
  (Z.of_nat (length (io_workers_ (session w))) ≤ INT_MAX)%Z →
  on_execute_loop cap rs w
  = Returns ()
      (with_session
         (λ s, set_request_future_queue_
                 (Some {| capacity := cap; items := [] |})
                 (set_current_io_worker_
                    (Z.of_nat ((c + length rs)
                               `mod` length (io_workers_ (session w)))) s))
         (add_effects (rotation c (length (io_workers_ (session w))) rs) w)).
Proof.
  revert c w. induction rs as [|r rest IH]; intros c w Hq Hc Hlt Hfree Hsize.
  - cbn [on_execute_loop rotation length]. unfold ret, with_session, add_effects.
    cbn [session effects heap_top].
    rewrite Nat.add_0_r, Nat.mod_small by exact Hlt.
    rewrite (set_current_io_worker_same _ _ Hc).
    rewrite app_nil_r, (set_request_future_queue_same _ _ Hq), world_eta.
    reflexivity.
  - destruct (lookup_lt_is_Some_2 (io_workers_ (session w)) c Hlt) as [x Hx].
    pose proof (proj1 (Forall_lookup _ _) Hfree c x Hx) as Hx_free.
    cbn [on_execute_loop]. run_prims.
    assert (Hnone : ∀ i y, c ≤ i < c → io_workers_ (session w) !! i = Some y →
                           saturated y = true) by (intros i y Hi; lia).
    match goal with
    | |- context [on_execute_request r ?w1] =>
        rewrite (on_execute_request_forward r c c x w1
                   Hc (le_n c) Hnone Hx Hx_free Hsize)
    end.
    cbn [session]. rewrite Nat.sub_diag.
    assert (Hpos : length (io_workers_ (session w)) ≠ 0) by lia.
    pose proof (Nat.mod_upper_bound (S c) _ Hpos) as Hnext.
    rewrite (IH (S c `mod` length (io_workers_ (session w))));
      cbn [session with_session add_effects]; try assumption; try reflexivity.
    unfold with_session, add_effects.
    cbn [session effects heap_top rotation refusals seq fmap list_fmap app length].
    rewrite Nat.Div0.add_mod_idemp_l.
    replace (S c + length rest) with (c + S (length rest)) by lia.
    rewrite <- !app_assoc. reflexivity.
Qed.

(** In a rotation the [k]-th request goes to worker [(c + k) mod n]. *)
Lemma rotation_lookup (c n : nat) (rs : list ptr) (k : nat) (r : ptr) :
  c < n →
  rs !! k = Some r →
  rotation (Address := Address) c n rs !! (2 * k + 1)
  = Some (IOWorker_execute ((c + k) `mod` n) r true).
Proof.
  revert c k. induction rs as [|r0 rest IH]; intros c k Hc Hk; [done|].
  destruct k as [|k].
  - cbn in Hk. injection Hk as ->. cbn.
    rewrite Nat.add_0_r, Nat.mod_small by exact Hc. reflexivity.
  - cbn in Hk. cbn [rotation].
    replace (2 * S k + 1) with (S (S (2 * k + 1))) by lia.
    assert (Hn : n ≠ 0) by lia.
    change (rotation (Address := Address) (S c `mod` n) n rest !! (2 * k + 1)
            = Some (IOWorker_execute ((c + S k) `mod` n) r true)).
    rewrite (IH (S c `mod` n) k (Nat.mod_upper_bound _ _ Hn) Hk).
    rewrite Nat.Div0.add_mod_idemp_l.
    do 3 f_equal. lia.
Qed.

(** Two requests fewer than [n] places apart in a rotation go to
    different workers: no worker gets its next request before all the
    others have had one. *)
Lemma rotation_spread (c n k1 k2 : nat) :
  k1 < k2 < k1 + n → (c + k1) `mod` n ≠ (c + k2) `mod` n.
Proof.
  intros Hk Heq.
  pose proof (Nat.div_mod_eq (c + k1) n) as H1.
  pose proof (Nat.div_mod_eq (c + k2) n) as H2.
  rewrite Heq in H1.
  set (q1 := (c + k1) / n) in *. set (q2 := (c + k2) / n) in *.
  assert (Hd : n * q2 = n * q1 + (k2 - k1)) by lia.
  destruct (Nat.lt_trichotomy q1 q2) as [Hlt|[Heq'|Hgt]].
  - assert (n * S q1 ≤ n * q2) by (apply Nat.mul_le_mono_l; lia). lia.
  - subst q2. rewrite Heq' in Hd. lia.
  - assert (n * S q2 ≤ n * q1) by (apply Nat.mul_le_mono_l; lia). lia.
Qed.

(** ** Events *)

Lemma set_event_queue_same s q :
  event_queue_ s = q → set_event_queue_ q s = s.
Proof. destruct s; simpl; intros ->; reflexivity. Qed.

Lemma set_pending_connections_count_same s c :
  pending_connections_count_ s = c → set_pending_connections_count_ c s = s.
Proof. destruct s; simpl; intros ->; reflexivity. Qed.

(** A CONNECTED event that does not bring the counter to zero only
    counts down. *)
Lemma on_event_payload_counts (payload : Payload) w :
  type payload = ON_CONNECTED →
  wrap_int (pending_connections_count_ (session w) - 1) ≠ 0%Z →
  on_event_payload payload w
  = Returns ()
      (with_session
         (set_pending_connections_count_
            (wrap_int (pending_connections_count_ (session w) - 1))) w).
Proof.
  intros Htype Hnz. unfold on_event_payload. rewrite Htype. run_prims. cbn.
  destruct (decide _) as [Hz|_]; [contradiction|]. reflexivity.
Qed.

(** The CONNECTED event that brings the counter from one to zero. *)
Lemma on_event_payload_fires (payload : Payload) (f : ptr) w :
  type payload = ON_CONNECTED →
  pending_connections_count_ (session w) = 1%Z →
  connect_future_ (session w) = Some f →
  on_event_payload payload w
  = Returns ()
      (with_session
         (λ s, set_connect_future_ None
                 (set_state_ SESSION_STATE_READY
                    (set_pending_connections_count_ 0 s)))
         (add_effects [Policy_init (hosts_ (session w)); set_result f] w)).
Proof.
  intros Htype Hone Hf. unfold on_event_payload. rewrite Htype. run_prims. cbn.
  rewrite Hone. change (wrap_int (1 - 1)) with 0%Z.
  destruct (decide (0 = 0)%Z) as [_|Hne]; [|contradiction].
  cbn. rewrite Hf. unfold with_session, add_effects. cbn.
  rewrite <- app_assoc. reflexivity.
Qed.

(** The loop over a run of CONNECTED events none of which brings the
    counter to zero: the counter goes down by their number, nothing else
    happens, and the loop goes on with what is left in the queue. *)
Lemma on_event_loop_countdown (cap : nat) (run rest : list Payload) (c : Z) w :
  Forall (λ p, type p = ON_CONNECTED) run →
  pending_connections_count_ (session w) = c →
  (INT_MIN ≤ c ≤ INT_MAX)%Z →
  (∀ j : nat, 1 ≤ j ≤ length run → wrap_int (c - Z.of_nat j) ≠ 0%Z) →
  event_queue_ (session w) = Some {| capacity := cap; items := run ++ rest |} →
  on_event_loop cap (run ++ rest) w
  = on_event_loop cap rest
      (with_session
         (λ s, set_event_queue_ (Some {| capacity := cap; items := rest |})
                 (set_pending_connections_count_
                    (wrap_int (c - Z.of_nat (length run))) s)) w).
Proof.
  revert c w. induction run as [|p run IH]; intros c w Hrun Hc Hrange Hnz Hq.
  - cbn [app length] in *. unfold with_session.
    rewrite Z.sub_0_r, wrap_int_small by exact Hrange.
    rewrite (set_pending_connections_count_same _ _ Hc).
    rewrite (set_event_queue_same _ _ Hq), world_eta. reflexivity.
  - apply Forall_cons in Hrun as [Hp Hrun].
    cbn [app on_event_loop]. run_prims.
    assert (Hfirst : wrap_int (c - 1) ≠ 0%Z).
    { apply (Hnz 1). cbn [length]. lia. }
    match goal with
    | |- context [on_event_payload p ?w1] =>
        rewrite (on_event_payload_counts p w1 Hp)
    end; cbn [session]; [|cbn; rewrite Hc; exact Hfirst].
    rewrite (IH (wrap_int (c - 1)));
      [ |exact Hrun|cbn; rewrite Hc; reflexivity|apply wrap_int_range
        | |reflexivity].
    + f_equal. unfold with_session. cbn.
      rewrite wrap_int_idemp_sub.
      replace (c - 1 - Z.of_nat (length run))%Z
        with (c - Z.of_nat (S (length run)))%Z by lia.
      reflexivity.
    + intros j Hj. rewrite wrap_int_idemp_sub.
      replace (c - 1 - Z.of_nat j)%Z with (c - Z.of_nat (S j))%Z by lia.
      apply Hnz. cbn [length]. lia.
Qed.

Lemma wrap_int_negative_nonzero (j : Z) :
  (0 < j < 2 ^ 32)%Z → wrap_int (- j) ≠ 0%Z.
Proof.
  intros Hj Hz. apply wrap_int_zero in Hz.
  pose proof (Z_div_mod_eq_full (- j) (2 ^ 32)) as Hdiv.
  rewrite Hz in Hdiv. lia.
Qed.

(** One wake-up of [on_event] on a queue of CONNECTED events none of
    which brings the counter to zero. *)
Lemma on_event_countdown (cap : nat) (run : list Payload) (c : Z) w :
  event_queue_ (session w) = Some {| capacity := cap; items := run |} →
  Forall (λ p, type p = ON_CONNECTED) run →
  pending_connections_count_ (session w) = c →
  (INT_MIN ≤ c ≤ INT_MAX)%Z →
  (∀ j : nat, 1 ≤ j ≤ length run → wrap_int (c - Z.of_nat j) ≠ 0%Z) →
  on_event w
  = Returns ()
      (with_session
         (λ s, set_event_queue_ (Some {| capacity := cap; items := [] |})
                 (set_pending_connections_count_
                    (wrap_int (c - Z.of_nat (length run))) s)) w).
Proof.
  intros Hq Hrun Hc Hrange Hnz.
  unfold on_event. run_prims. rewrite Hq. cbn [capacity items].
  rewrite <- (app_nil_r run) at 1.
  rewrite (on_event_loop_countdown cap run [] c w Hrun Hc Hrange Hnz)
    by (rewrite app_nil_r; exact Hq).
  reflexivity.
Qed.

(** ** Wake-ups *)

(** The workers' notifications of connections: those for which the
    event queue has room are queued in order, the others are dropped. *)
Lemma for_each_notify_connect_q (cap : nat) (queued : list Payload)
    (hs : list Host) w :
  event_queue_ (session w) = Some {| capacity := cap; items := queued |} →
  for_each hs notify_connect_q w
  = Returns ()
      (with_session
         (set_event_queue_
            (Some {| capacity := cap;
                     items := queued
                              ++ take (cap - length queued)
                                   ((λ h, {| type := ON_CONNECTED;
                                             host := Some h |}) <$> hs) |}))
         w).
Proof.
  revert queued w. induction hs as [|h hs IH]; intros queued w Hq.
  - cbn. unfold ret, with_session. rewrite take_nil, app_nil_r.
    rewrite (set_event_queue_same _ _ Hq), world_eta. reflexivity.
  - cbn [for_each]. unfold bind at 1.
    unfold notify_connect_q at 1. run_prims. rewrite Hq.
    unfold enqueue, queue_full. cbn [capacity items].
    case_bool_decide as Hfull; cbn [snd].
    + rewrite (IH queued); [|reflexivity].
      replace (cap - length queued) with 0 by lia.
      rewrite !take_0. unfold with_session, set_event_queue_. cbn.
      reflexivity.
    + rewrite (IH (queued ++ [{| type := ON_CONNECTED; host := Some h |}]));
        [|reflexivity].
      rewrite length_app. cbn [length fmap list_fmap].
      replace (cap - length queued) with (S (cap - (length queued + 1))) by lia.
      cbn [take]. unfold with_session, set_event_queue_. cbn.
      rewrite <- app_assoc. reflexivity.
Qed.

(** A wake-up whose notifications all fit into the empty queue runs
    [on_event] on their events. *)
Lemma wake_up_on_event (cap : nat) (hs : list Host) w :
  event_queue_ (session w) = Some {| capacity := cap; items := [] |} →
  length hs ≤ cap →
  wake_up hs w
  = on_event
      (with_session
         (set_event_queue_
            (Some {| capacity := cap;
                     items := (λ h, {| type := ON_CONNECTED; host := Some h |})
                                <$> hs |}))
         w).
Proof.
  intros Hq Hfit. unfold wake_up, bind.
  rewrite (for_each_notify_connect_q cap [] hs w Hq).
  cbn [app length]. rewrite Nat.sub_0_r, take_ge by (rewrite length_fmap; lia).
  reflexivity.
Qed.

Lemma connected_events (hs : list Host) :
  Forall (λ p : Payload (Address := Address), type p = ON_CONNECTED)
    ((λ h, {| type := ON_CONNECTED; host := Some h |}) <$> hs).
Proof. apply Forall_fmap, Forall_forall. intros h _. reflexivity. Qed.

(** A wake-up none of whose notifications brings the counter to zero
    changes the counter and nothing else. *)
Lemma wake_up_countdown (cap : nat) (hs : list Host) (c : Z) w :
  event_queue_ (session w) = Some {| capacity := cap; items := [] |} →
  length hs ≤ cap →
  pending_connections_count_ (session w) = c →
  (INT_MIN ≤ c ≤ INT_MAX)%Z →
  (∀ j : nat, 1 ≤ j ≤ length hs → wrap_int (c - Z.of_nat j) ≠ 0%Z) →
  wake_up hs w
  = Returns ()
      (with_session
         (set_pending_connections_count_ (wrap_int (c - Z.of_nat (length hs))))
         w).
Proof.
  intros Hq Hfit Hc Hrange Hnz.
  rewrite (wake_up_on_event cap hs w Hq Hfit).
  erewrite (on_event_countdown cap _ c);
    [ |reflexivity|apply connected_events|exact Hc|exact Hrange
      |rewrite length_fmap; exact Hnz].
  rewrite length_fmap.
  destruct w as [s e h]. destruct s. cbn in Hq. subst. reflexivity.
Qed.

(** The same over a sequence of wake-ups. *)
Lemma wake_ups_countdown (cap : nat) (batches : list (list Host)) (c : Z) w :
  event_queue_ (session w) = Some {| capacity := cap; items := [] |} →
  Forall (λ hs, length hs ≤ cap) batches →
  pending_connections_count_ (session w) = c →
  (INT_MIN ≤ c ≤ INT_MAX)%Z →
  (∀ j : nat, 1 ≤ j ≤ length (concat batches) →
     wrap_int (c - Z.of_nat j) ≠ 0%Z) →
  wake_ups batches w
  = Returns ()
      (with_session
         (set_pending_connections_count_
            (wrap_int (c - Z.of_nat (length (concat batches)))))
         w).
Proof.
  revert c w.
  induction batches as [|hs batches IH]; intros c w Hq Hfit Hc Hrange Hnz.
  - cbn. unfold ret, with_session.
    rewrite Z.sub_0_r, wrap_int_small by exact Hrange.
    rewrite (set_pending_connections_count_same _ _ Hc), world_eta.
    reflexivity.
  - apply Forall_cons in Hfit as [Hhs Hfit].
    cbn [concat] in *. rewrite length_app in *.
    unfold wake_ups. cbn [for_each]. unfold bind at 1.
    rewrite (wake_up_countdown cap hs c w Hq Hhs Hc Hrange)
      by (intros j Hj; apply Hnz; lia).
    fold (wake_ups batches).
    match goal with
    | |- wake_ups batches ?w1 = _ =>
        rewrite (IH (wrap_int (c - Z.of_nat (length hs))) w1 Hq Hfit eq_refl)
    end; [ |apply wrap_int_range| ].
    + f_equal. unfold with_session. cbn.
      rewrite wrap_int_idemp_sub.
      replace (c - Z.of_nat (length hs) - Z.of_nat (length (concat batches)))%Z
        with (c - Z.of_nat (length hs + length (concat batches)))%Z by lia.
      destruct w as [s e h]. destruct s. reflexivity.
    + intros j Hj. rewrite wrap_int_idemp_sub.
      replace (c - Z.of_nat (length hs) - Z.of_nat j)%Z
        with (c - Z.of_nat (length hs + j))%Z by lia.
      apply Hnz. lia.
Qed.

(** The wake-up in which the counter comes to zero: the notification
    after [pre] is the last one outstanding, those of [post] are
    counted below zero. *)
Lemma wake_up_fires (cap : nat) (pre post : list Host) (x : Host)
    (f : ptr) w :
  event_queue_ (session w) = Some {| capacity := cap; items := [] |} →
  length (pre ++ x :: post) ≤ cap →
  pending_connections_count_ (session w) = Z.of_nat (S (length pre)) →
  (Z.of_nat (S (length pre)) ≤ INT_MAX)%Z →
  (Z.of_nat (length post) < 2 ^ 32)%Z →
  connect_future_ (session w) = Some f →
  wake_up (pre ++ x :: post) w
  = Returns ()
      (with_session
         (λ s, set_connect_future_ None
                 (set_state_ SESSION_STATE_READY
                    (set_pending_connections_count_
                       (wrap_int (- Z.of_nat (length post))) s)))
         (add_effects [Policy_init (hosts_ (session w)); set_result f] w)).
Proof.
  intros Hq Hfit Hc Hmax Hpost Hf. unfold INT_MAX in Hmax.
  rewrite (wake_up_on_event cap _ w Hq Hfit).
  unfold on_event. run_prims. cbn [with_session session set_event_queue_].
  destruct w as [s e h]. destruct s. cbn in Hq, Hc, Hf. subst.
  cbn [event_queue_ capacity items]. rewrite fmap_app. cbn [fmap list_fmap].
  unfold with_session, add_effects, set_event_queue_.
  cbn [session effects heap_top event_queue_ capacity items hosts_].
  match goal with
  | |- on_event_loop _ _ ?w1 = _ =>
      rewrite (on_event_loop_countdown cap _ _ (Z.of_nat (S (length pre))) w1
                 (connected_events pre) eq_refl)
  end; [ |unfold INT_MIN, INT_MAX; lia| |reflexivity].
  2:{ intros j Hj. rewrite length_fmap in Hj.
      rewrite wrap_int_small; unfold INT_MIN, INT_MAX; lia. }
  rewrite length_fmap.
  replace (Z.of_nat (S (length pre)) - Z.of_nat (length pre))%Z with 1%Z by lia.
  change (wrap_int 1) with 1%Z.
  cbn [on_event_loop]. run_prims.
  match goal with
  | |- context [on_event_payload ?p ?w1] =>
      rewrite (on_event_payload_fires p f w1 eq_refl eq_refl eq_refl)
  end.
  cbv beta iota delta
    [with_session add_effects set_event_queue_ set_pending_connections_count_
     set_state_ set_connect_future_ session effects heap_top state_
     io_workers_ keyspace_ connect_future_ shutdown_future_ hosts_ config_
     request_future_queue_ event_queue_ pending_resolve_count_
     pending_connections_count_ current_io_worker_].
  match goal with
  | |- on_event_loop _ ?l ?w1 = _ =>
      transitivity (on_event_loop cap (l ++ []) w1);
        [rewrite app_nil_r; reflexivity|];
      rewrite (on_event_loop_countdown cap _ [] 0%Z w1
                 (connected_events post) eq_refl)
  end; [ |unfold INT_MIN, INT_MAX; lia| |rewrite app_nil_r; reflexivity].
  2:{ intros j Hj. rewrite length_fmap in Hj. rewrite Z.sub_0_l.
      apply wrap_int_negative_nonzero. lia. }
  rewrite length_fmap, Z.sub_0_l. reflexivity.
Qed.

(** The wake-ups that bring a positive counter to zero and below. *)
Lemma wake_ups_fire (cap : nat) (batches : list (list Host)) (n : nat)
    (f : ptr) w :
  event_queue_ (session w) = Some {| capacity := cap; items := [] |} →
  Forall (λ hs, length hs ≤ cap) batches →
  pending_connections_count_ (session w) = Z.of_nat n →
  0 < n ≤ length (concat batches) →
  (Z.of_nat n ≤ INT_MAX)%Z →
  (Z.of_nat (length (concat batches)) < Z.of_nat n + 2 ^ 32)%Z →
  connect_future_ (session w) = Some f →
  wake_ups batches w
  = Returns ()
      (with_session
         (λ s, set_connect_future_ None
                 (set_state_ SESSION_STATE_READY
                    (set_pending_connections_count_
                       (wrap_int
                          (Z.of_nat n - Z.of_nat (length (concat batches))))
                       s)))
         (add_effects [Policy_init (hosts_ (session w)); set_result f] w)).
Proof.
  revert n w.
  induction batches as [|hs batches IH];
    intros n w Hq Hfit Hc Hn Hmax Hfew Hf.
  { cbn in Hn. lia. }
  apply Forall_cons in Hfit as [Hhs Hfit].
  cbn [concat] in *. rewrite length_app in *. unfold INT_MAX in Hmax.
  unfold wake_ups. cbn [for_each]. unfold bind at 1.
  fold (wake_ups batches).
  destruct (decide (length hs < n)) as [Hless|Hreach].
  - rewrite (wake_up_countdown cap hs (Z.of_nat n) w Hq Hhs Hc);
      [ |unfold INT_MIN, INT_MAX; lia| ].
    2:{ intros j Hj. rewrite wrap_int_small; unfold INT_MIN, INT_MAX; lia. }
    rewrite wrap_int_small by (unfold INT_MIN, INT_MAX; lia).
    match goal with
    | |- wake_ups batches ?w1 = _ =>
        rewrite (IH (n - length hs) w1 Hq Hfit)
    end; [ |cbn; f_equal; lia|lia|unfold INT_MAX; lia|lia|exact Hf].
    f_equal. unfold with_session, add_effects. cbn.
    replace (Z.of_nat (n - length hs) - Z.of_nat (length (concat batches)))%Z
      with (Z.of_nat n
            - Z.of_nat (length hs + length (concat batches)))%Z by lia.
    destruct w as [s e h]. destruct s. reflexivity.
  - assert (Hsplit : ∃ pre x post,
              hs = pre ++ x :: post ∧ S (length pre) = n).
    { exists (take (n - 1) hs).
      destruct (drop (n - 1) hs) as [|x post] eqn:Hdrop.
      - apply (f_equal length) in Hdrop. rewrite length_drop in Hdrop.
        cbn in Hdrop. lia.
      - exists x, post. split.
        + rewrite <- Hdrop, take_drop. reflexivity.
        + rewrite length_take. lia. }
    destruct Hsplit as (pre & x & post & -> & <-).
    rewrite length_app in Hfew, Hn. cbn [length] in Hfew, Hn.
    rewrite (wake_up_fires cap pre post x f w Hq Hhs Hc);
      [ |unfold INT_MAX; lia|lia|exact Hf].
    match goal with
    | |- wake_ups batches ?w1 = _ =>
        rewrite (wake_ups_countdown cap batches
                   (wrap_int (- Z.of_nat (length post))) w1 Hq Hfit)
    end; [ |reflexivity|apply wrap_int_range| ].
    2:{ intros j Hj. rewrite wrap_int_idemp_sub.
        replace (- Z.of_nat (length post) - Z.of_nat j)%Z
          with (- (Z.of_nat (length post) + Z.of_nat j))%Z by lia.
        apply wrap_int_negative_nonzero. lia. }
    f_equal. unfold with_session, add_effects. cbn.
    rewrite wrap_int_idemp_sub, length_app. cbn [length].
    replace (- Z.of_nat (length post) - Z.of_nat (length (concat batches)))%Z
      with (Z.of_nat (S (length pre))
            - Z.of_nat (length pre + S (length post)
                        + length (concat batches)))%Z by lia.
    destruct w as [s e h]. destruct s. reflexivity.
Qed.

(** C5: the session loop is woken up any number of times, each time
    with a batch of connection notifications in the event queue, none of
    them lost.  When the counter of outstanding connections starts at a
    positive [n] and the wake-ups bring at least [n] notifications in
    all, the session has become READY, the policy has been initialised
    with the host set once, the connect future has been resolved once and
    the pointer to it cleared; the notifications beyond the [n]-th (fewer
    than 2^32, where the 32-bit counter would come round to zero) are
    counted below zero and do nothing else.  With fewer than [n]
    notifications, and whenever the counter starts at zero, only the
    counter has changed: the session is not READY and the future is still
    pending.  The counter after the wake-ups is the [int] [n] minus the
    number of notifications in both cases, so that the statement can be
    applied again to further wake-ups. *)
Theorem readiness_exactly_once (cap n : nat) (batches : list (list Host))
    (f : ptr) w :
  event_queue_ (session w) = Some {| capacity := cap; items := [] |} →
  Forall (λ batch, length batch ≤ cap) batches →
  pending_connections_count_ (session w) = Z.of_nat n →
  (Z.of_nat n ≤ INT_MAX)%Z →
  (Z.of_nat (length (concat batches)) < Z.of_nat n + 2 ^ 32)%Z →
  connect_future_ (session w) = Some f →
  let remaining :=
    wrap_int (Z.of_nat n - Z.of_nat (length (concat batches))) in
  wake_ups batches w
  = Returns ()
      (if bool_decide (0 < n ≤ length (concat batches)) then
         with_session
           (λ s, set_connect_future_ None
                   (set_state_ SESSION_STATE_READY
                      (set_pending_connections_count_ remaining s)))
           (add_effects [Policy_init (hosts_ (session w)); set_result f] w)
       else
         with_session (set_pending_connections_count_ remaining) w).
Proof.
  intros Hq Hfit Hc Hmax Hfew Hf remaining. subst remaining.
  case_bool_decide as Hn.
  - apply (wake_ups_fire cap batches n f w Hq Hfit Hc Hn Hmax Hfew Hf).
  - apply (wake_ups_countdown cap batches (Z.of_nat n) w Hq Hfit Hc).
    + unfold INT_MIN, INT_MAX in *. lia.
    + intros j Hj. destruct (decide (n = 0)) as [->|Hpos].
      * rewrite Z.sub_0_l. apply wrap_int_negative_nonzero. lia.
      * rewrite wrap_int_small; unfold INT_MIN, INT_MAX in *; lia.
Qed.

(** ** Pool bootstrap *)

Lemma for_each_emit {A} (l : list A) (g : A → Effect (Address := Address)) w :
  for_each l (λ x, emit (g x)) w = Returns () (add_effects (g <$> l) w).
Proof.
  revert w. induction l as [|x l IH]; intros w.
  - cbn. unfold ret. rewrite add_effects_nil. reflexivity.
  - cbn [for_each]. run_prims. rewrite IH. same_world.
Qed.

Lemma for_each_for_each_emit {A B} (l : list A) (k : list B)
    (g : A → B → Effect (Address := Address)) w :
  for_each l (λ x, for_each k (λ y, emit (g x y))) w
  = Returns () (add_effects (x ← l; g x <$> k) w).
Proof.
  revert w. induction l as [|x l IH]; intros w.
  - cbn. unfold ret. rewrite add_effects_nil. reflexivity.
  - cbn [for_each]. unfold bind at 1. rewrite for_each_emit, IH.
    unfold add_effects. cbn. rewrite <- app_assoc. reflexivity.
Qed.

(** What [init_pools] does, with the arithmetic as the machine does it. *)
Lemma init_pools_runs w :
  init_pools w
  = Returns ()
      (with_session
         (set_pending_connections_count_
            (wrap_int
               (wrap_int (wrap_size
                            (Z.of_nat (size (hosts_ (session w)))
                             * Z.of_nat (length (io_workers_ (session w)))))
                * core_connections_per_host (config_ (session w)))))
         (add_effects (call_init_pools :: pool_requests (session w)) w)).
Proof.
  unfold init_pools. run_prims.
  rewrite (for_each_for_each_emit _ _ (λ h i, add_pool_q i h)).
  unfold pool_requests. same_world.
Qed.

(** The two products of [init_pools] when the result fits an [int]. *)
Lemma pool_count_exact (hosts workers per_host : Z) :
  (0 ≤ hosts)%Z → (0 ≤ workers)%Z → (0 ≤ per_host)%Z →
  (hosts * workers * per_host ≤ INT_MAX)%Z →
  wrap_int (wrap_int (wrap_size (hosts * workers)) * per_host)
  = (hosts * workers * per_host)%Z.
Proof.
  intros Hh Hw Hp Hmax. unfold INT_MAX in Hmax.
  destruct (decide (per_host = 0%Z)) as [->|Hne].
  - rewrite !Z.mul_0_r. reflexivity.
  - assert (0 ≤ hosts * workers)%Z by lia.
    assert (hosts * workers ≤ hosts * workers * per_host)%Z by nia.
    rewrite wrap_size_small by lia.
    rewrite (wrap_int_small (hosts * workers)) by (unfold INT_MIN, INT_MAX; lia).
    apply wrap_int_small. unfold INT_MIN, INT_MAX. nia.
Qed.

(** The requests of [init_pools] are the pairs of a known host and a
    worker, each once. *)
Lemma pool_requests_pairs s (e : Effect) :
  e ∈ pool_requests s
  ↔ ∃ h i, e = add_pool_q i h ∧ h ∈ hosts_ s ∧ i < length (io_workers_ s).
Proof.
  unfold pool_requests, worker_indices, hosts_in_order.
  rewrite list_elem_of_bind. split.
  - intros (h & He & Hh). apply list_elem_of_fmap in He as (i & -> & Hi).
    apply elem_of_seq in Hi. rewrite merge_sort_Permutation in Hh.
    apply elem_of_elements in Hh.
    exists h, i. split; [reflexivity|]. split; [exact Hh|lia].
  - intros (h & i & -> & Hh & Hi). exists h. split.
    + apply list_elem_of_fmap. exists i. split; [reflexivity|].
      apply elem_of_seq. lia.
    + rewrite merge_sort_Permutation. apply elem_of_elements. exact Hh.
Qed.

Lemma pool_requests_once s : NoDup (pool_requests s).
Proof.
  unfold pool_requests. apply NoDup_bind.
  - intros h1 h2 e _ _ H1 H2.
    apply list_elem_of_fmap in H1 as (i1 & -> & _).
    apply list_elem_of_fmap in H2 as (i2 & Heq & _).
    congruence.
  - intros h _. apply NoDup_fmap_2; [|apply NoDup_seq].
    intros i1 i2 Heq. congruence.
  - unfold hosts_in_order. rewrite merge_sort_Permutation.
    apply NoDup_elements.
Qed.

(** The loop of [init_pools] visits every known host, the smaller
    address first, when [operator<] is a total order. *)
Lemma hosts_in_order_elements (hs : gset Host) (h : Host) :
  h ∈ hosts_in_order hs ↔ h ∈ hs.
Proof.
  unfold hosts_in_order. rewrite merge_sort_Permutation.
  apply elem_of_elements.
Qed.

Lemma hosts_in_order_sorted `{!Total host_before, !Transitive host_before}
    (hs : gset Host) :
  StronglySorted host_before (hosts_in_order hs).
Proof. apply StronglySorted_merge_sort; assumption. Qed.

(** ** Contact points *)

Variable from_string : string → Z → option Address.

Lemma wrap_int_idemp_add (z d : Z) :
  wrap_int (wrap_int z + d) = wrap_int (z + d).
Proof.
  replace (wrap_int z + d)%Z with (wrap_int z - - d)%Z by lia.
  rewrite wrap_int_idemp_sub. f_equal. lia.
Qed.

Lemma set_hosts_same s hs : hosts_ s = hs → set_hosts_ hs s = s.
Proof. destruct s; simpl; intros ->; reflexivity. Qed.

Lemma set_pending_resolve_count_same s c :
  pending_resolve_count_ s = c → set_pending_resolve_count_ c s = s.
Proof. destruct s; simpl; intros ->; reflexivity. Qed.

(** The loop of [on_connect] over the contact points. *)
Lemma on_connect_seeds_runs (seeds : list string) (port_number : Z) w :
  (INT_MIN ≤ pending_resolve_count_ (session w) ≤ INT_MAX)%Z →
  on_connect_seeds from_string seeds port_number w
  = Returns () (seeded from_string seeds port_number w).
Proof.
  revert w. induction seeds as [|seed seeds IH]; intros w Hrange.
  - destruct w as [s es top]. cbn in Hrange.
    unfold seeded, with_session, add_effects. cbn.
    rewrite Z.add_0_r, wrap_int_small by exact Hrange.
    rewrite (left_id_L ∅ (∪)), app_nil_r.
    destruct s; reflexivity.
  - cbn [on_connect_seeds].
    destruct (from_string seed port_number) as [a|] eqn:Hseed.
    + run_prims. rewrite IH by exact Hrange.
      unfold seeded, literal_hosts, symbolic_names.
      rewrite filter_cons_False by (rewrite Hseed; discriminate).
      cbn [omap list_omap]. rewrite Hseed. cbn [fmap option_fmap option_map].
      destruct w as [s es top]. destruct s.
      unfold with_session, add_effects, set_pending_resolve_count_, set_hosts_.
      cbn.
      rewrite (assoc_L (∪)), (comm_L (∪) _ {[ _ ]}). reflexivity.
    + run_prims. rewrite IH by (cbn; apply wrap_int_range).
      unfold seeded, literal_hosts, symbolic_names.
      rewrite filter_cons_True by exact Hseed.
      cbn [omap list_omap]. rewrite Hseed.
      destruct w as [s es top]. destruct s.
      unfold with_session, add_effects. cbn.
      rewrite wrap_int_idemp_add, <- app_assoc. cbn [app].
      unfold set_pending_resolve_count_, set_hosts_. cbn.
      rewrite Nat2Z.inj_succ, <- Z.add_1_l, Z.add_assoc. reflexivity.
Qed.

(** [on_connect] bootstraps the pools at the end of the loop exactly
    when no resolution is outstanding then. *)
Lemma on_connect_runs w :
  (INT_MIN ≤ pending_resolve_count_ (session w) ≤ INT_MAX)%Z →
  on_connect from_string w
  = let w1 := seeded from_string (contact_points (config_ (session w)))
                (port (config_ (session w))) w in
    if decide (pending_resolve_count_ (session w1) = 0%Z)
    then init_pools w1 else Returns () w1.
Proof.
  intros Hrange. unfold on_connect. run_prims.
  rewrite on_connect_seeds_runs by exact Hrange. cbn zeta.
  destruct (decide _); reflexivity.
Qed.

(** C6: pool bootstrap sets [pending_connections_count_] to the number
    of hosts times the number of workers times
    [core_connections_per_host] (for a product that fits the [int]
    counter) and sends one [add_pool_q] for every pair of a known host and
    a worker, and nothing else.  With two contact points that are literal
    addresses of different hosts, one worker and
    [core_connections_per_host] = 1, [on_connect] asks the resolver
    nothing and leaves the counter at 2. *)
Theorem pool_bootstrap w (seed1 seed2 : string) (a1 a2 : Address) (w_A : World) :
  (0 ≤ core_connections_per_host (config_ (session w)))%Z →
  (Z.of_nat (size (hosts_ (session w)))
   * Z.of_nat (length (io_workers_ (session w)))
   * core_connections_per_host (config_ (session w)) ≤ INT_MAX)%Z →
  contact_points (config_ (session w_A)) = [seed1; seed2] →
  from_string seed1 (port (config_ (session w_A))) = Some a1 →
  from_string seed2 (port (config_ (session w_A))) = Some a2 →
  a1 ≠ a2 →
  hosts_ (session w_A) = ∅ →
  pending_resolve_count_ (session w_A) = 0%Z →
  length (io_workers_ (session w_A)) = 1 →
  core_connections_per_host (config_ (session w_A)) = 1%Z →
  (∃ w',
     init_pools w = Returns () w'
     ∧ pending_connections_count_ (session w')
       = (Z.of_nat (size (hosts_ (session w)))
          * Z.of_nat (length (io_workers_ (session w)))
          * core_connections_per_host (config_ (session w)))%Z
     ∧ effects w' = effects w ++ call_init_pools :: pool_requests (session w)
     ∧ NoDup (pool_requests (session w))
     ∧ ∀ e, e ∈ pool_requests (session w)
            ↔ ∃ h i, e = add_pool_q i h ∧ h ∈ hosts_ (session w)
                     ∧ i < length (io_workers_ (session w)))
  ∧ (∃ w' new,
       on_connect from_string w_A = Returns () w'
       ∧ pending_connections_count_ (session w') = 2%Z
       ∧ effects w' = effects w_A ++ new
       ∧ ∀ seed port_number, Resolver_resolve seed port_number ∉ new).
Proof.
  intros Hper_host Hmax Hseeds Hseed1 Hseed2 Hdiff Hhosts Hpending Hworkers Hone.
  split.
  - eexists. split; [apply init_pools_runs|].
    split; [|split; [reflexivity|split]].
    + cbn. apply pool_count_exact; lia.
    + apply pool_requests_once.
    + apply pool_requests_pairs.
  - rewrite on_connect_runs by (rewrite Hpending; unfold INT_MIN, INT_MAX; lia).
    rewrite Hseeds. cbn zeta.
    assert (Hsym : symbolic_names from_string [seed1; seed2]
                     (port (config_ (session w_A))) = []).
    { unfold symbolic_names.
      rewrite filter_cons_False by (rewrite Hseed1; discriminate).
      rewrite filter_cons_False by (rewrite Hseed2; discriminate).
      reflexivity. }
    assert (Hlit : literal_hosts from_string [seed1; seed2]
                     (port (config_ (session w_A)))
                   = [Build_Host a1; Build_Host a2]).
    { unfold literal_hosts. cbn. rewrite Hseed1, Hseed2. reflexivity. }
    unfold seeded, with_session, add_effects. cbn [session effects heap_top].
    rewrite Hsym, Hlit, Hpending, Hhosts.
    cbn [length fmap list_fmap session pending_resolve_count_
         set_pending_resolve_count_].
    change (wrap_int (0 + Z.of_nat 0)) with 0%Z.
    destruct (decide (0 = 0)%Z) as [_|Hne]; [|contradiction].
    rewrite init_pools_runs.
    eexists. eexists. split; [reflexivity|]. split; [|split].
    + cbn. rewrite Hworkers, Hone.
      rewrite !(right_id_L ∅ (∪)).
      rewrite size_union by (apply disjoint_singleton_l;
                             rewrite elem_of_singleton; congruence).
      rewrite !size_singleton. reflexivity.
    + unfold with_session, add_effects. cbn [effects].
      rewrite app_nil_r. reflexivity.
    + intros seed port_number Hin.
      apply elem_of_cons in Hin as [Hin|Hin]; [discriminate Hin|].
      apply pool_requests_pairs in Hin as (h & i & Heq & _). discriminate Heq.
Qed.

(** ** Requests that no worker takes *)

(** X21: when every worker refuses the queued requests and the cursor
    is at the first worker, each request's completion handle is resolved
    with the error "All workers are busy"; the request is not destroyed
    (no [delete] is among the effects); the cursor and the state of the
    session stay as they were. *)
Theorem all_workers_refuse w (q : AsyncQueue ptr) :
  request_future_queue_ (session w) = Some q →
  current_io_worker_ (session w) = 0%Z →
  Forall (λ x, saturated x = true) (io_workers_ (session w)) →
  (Z.of_nat (length (io_workers_ (session w))) < 2 ^ 64)%Z →
  ∃ w',
    on_execute w = Returns () w'
    ∧ effects w'
      = effects w ++ all_refused (length (io_workers_ (session w))) (items q)
    ∧ (∀ r, r ∈ items q → set_error r workers_busy_error ∈ effects w')
    ∧ (∀ r, operator_delete r
            ∉ all_refused (Address := Address)
                (length (io_workers_ (session w))) (items q))
    ∧ current_io_worker_ (session w') = current_io_worker_ (session w)
    ∧ state_ (session w') = state_ (session w)
    ∧ message workers_busy_error = "All workers are busy".
Proof.
  intros Hq Hc Hsat Hsize. destruct q as [cap rs].
  eexists. split.
  { unfold on_execute. run_prims. rewrite Hq. cbn [capacity items].
    apply on_execute_loop_all_refuse; assumption. }
  cbn [items]. split; [reflexivity|]. split; [|split].
  - intros r Hr. unfold with_session, add_effects. cbn [effects].
    apply elem_of_app. right. unfold all_refused.
    apply list_elem_of_bind. exists r. split; [|exact Hr].
    apply elem_of_cons. right. apply elem_of_app. right.
    apply list_elem_of_singleton. reflexivity.
  - intros r Hin. unfold all_refused in Hin.
    apply list_elem_of_bind in Hin as (r' & Hin & _).
    apply elem_of_cons in Hin as [Heq|Hin]; [discriminate Heq|].
    apply elem_of_app in Hin as [Hin|Hin].
    + unfold refusals in Hin.
      apply list_elem_of_fmap in Hin as (i & Heq & _). discriminate Heq.
    + apply list_elem_of_singleton in Hin. discriminate Hin.
  - split; [reflexivity|]. split; reflexivity.
Qed.

(** ** How often the pools are bootstrapped *)

Lemma init_pools_calls_add_effects es w :
  init_pools_calls (add_effects es w)
  = init_pools_calls w + length (filter (λ e, e = call_init_pools) es).
Proof.
  unfold init_pools_calls, add_effects. cbn [effects].
  rewrite filter_app, length_app. reflexivity.
Qed.

Lemma filter_none {A} (P : A → Prop) `{∀ x, Decision (P x)} (l : list A) :
  (∀ x, x ∈ l → ¬ P x) → filter P l = [].
Proof.
  induction l as [|x l IH]; intros Hnone; [reflexivity|].
  rewrite filter_cons_False by (apply Hnone; left).
  apply IH. intros y Hy. apply Hnone. right. exact Hy.
Qed.

Lemma pool_requests_no_call s :
  filter (λ e, e = call_init_pools) (pool_requests s) = [].
Proof.
  apply filter_none. intros e Hin Heq. subst e.
  apply pool_requests_pairs in Hin as (h & i & Heq & _). discriminate Heq.
Qed.

(** One call of [init_pools] is one call more. *)
Lemma init_pools_counted w :
  ∃ w', init_pools w = Returns () w'
        ∧ init_pools_calls w' = S (init_pools_calls w)
        ∧ pending_resolve_count_ (session w') = pending_resolve_count_ (session w).
Proof.
  eexists. split; [apply init_pools_runs|]. split; [|reflexivity].
  unfold with_session, init_pools_calls. cbn [effects add_effects].
  rewrite filter_app, length_app, filter_cons_True by reflexivity.
  rewrite pool_requests_no_call. cbn [length]. lia.
Qed.

(** A successful resolution adds the host, counts down and bootstraps
    the pools when the counter has come to zero. *)
Lemma on_resolve_success (resolver : Resolver) w :
  is_success resolver = true →
  on_resolve resolver w
  = let w1 :=
      with_session
        (λ s, set_pending_resolve_count_
                (wrap_int (pending_resolve_count_ s - 1))
                (set_hosts_
                   ({[ Build_Host (resolver_address resolver) ]} ∪ hosts_ s) s))
        w in
    if decide (pending_resolve_count_ (session w1) = 0%Z)
    then init_pools w1 else Returns () w1.
Proof.
  intros Hok. unfold on_resolve. rewrite Hok. run_prims. cbn zeta.
  unfold with_session. cbn [session pending_resolve_count_
    set_pending_resolve_count_ set_hosts_].
  destruct (decide _); reflexivity.
Qed.

(** The callbacks of resolutions, at most as many as are outstanding.
    [init_pools] is called once if as many callbacks arrive as were
    outstanding and all report success, on the last of them; it is not
    called otherwise. *)
Lemma resolutions_run (completions : list Resolver) (c : nat) w :
  pending_resolve_count_ (session w) = Z.of_nat c →
  0 < c →
  (Z.of_nat c ≤ INT_MAX)%Z →
  length completions ≤ c →
  ∃ w',
    for_each completions on_resolve w = Returns () w'
    ∧ init_pools_calls w'
      = init_pools_calls w
        + (if forallb is_success completions && (length completions =? c)
           then 1 else 0).
Proof.
  revert c w. induction completions as [|r rest IH]; intros c w Hc Hpos Hmax Hlen.
  - eexists. split; [reflexivity|]. cbn [forallb length andb].
    destruct (Nat.eqb_spec 0 c); lia.
  - cbn [for_each length forallb] in *. unfold bind at 1.
    destruct (is_success r) eqn:Hr.
    + rewrite (on_resolve_success r w Hr). cbn zeta.
      set (w1 := with_session _ w).
      assert (Hc1 : pending_resolve_count_ (session w1) = Z.of_nat (c - 1)).
      { subst w1. unfold with_session. cbn. rewrite Hc.
        rewrite wrap_int_small by (unfold INT_MIN, INT_MAX in *; lia). lia. }
      assert (Hcalls1 : init_pools_calls w1 = init_pools_calls w) by reflexivity.
      destruct (decide (pending_resolve_count_ (session w1) = 0%Z))
        as [Hzero|Hmore].
      * assert (c = 1) by lia. subst c.
        assert (rest = []) by (destruct rest; [reflexivity|cbn in Hlen; lia]).
        subst rest.
        destruct (init_pools_counted w1) as (w' & Hrun & Hcalls & _).
        rewrite Hrun. exists w'. split; [reflexivity|].
        rewrite Hcalls, Hcalls1. cbn. lia.
      * destruct (IH (c - 1) w1) as (w' & Hrun & Hcalls); [exact Hc1|lia|lia|lia|].
        exists w'. split; [exact Hrun|].
        rewrite Hcalls, Hcalls1. cbn [andb].
        destruct (Nat.eqb_spec (length rest) (c - 1));
          destruct (Nat.eqb_spec (S (length rest)) c); try lia; reflexivity.
    + rewrite on_resolve_failure by exact Hr.
      destruct rest as [|r' rest'].
      * eexists. split; [reflexivity|].
        rewrite init_pools_calls_add_effects.
        rewrite filter_cons_False by discriminate. cbn. lia.
      * match goal with
        | |- context [for_each ?l on_resolve ?w1] =>
            destruct (IH c w1) as (w' & Hrun & Hcalls)
        end; [exact Hc|lia|lia|cbn [length] in *; lia|].
        exists w'. split; [exact Hrun|].
        rewrite Hcalls, init_pools_calls_add_effects.
        rewrite filter_cons_False by discriminate. cbn [andb filter length].
        destruct (Nat.eqb_spec (S (length rest')) c) as [Heq|_];
          [cbn [length] in *; lia|].
        rewrite andb_false_r. cbn. lia.
Qed.

(** A connect attempt from a session without outstanding resolutions,
    with the callbacks of at most as many resolutions as it issues:
    [init_pools] is called at most once; it is called exactly when all
    resolutions have completed, and all of them with success. *)
Lemma attempt_bootstraps (completions : list Resolver) w :
  pending_resolve_count_ (session w) = 0%Z →
  let names := symbolic_names from_string (contact_points (config_ (session w)))
                 (port (config_ (session w))) in
  (Z.of_nat (length names) ≤ INT_MAX)%Z →
  length completions ≤ length names →
  ∃ w',
    attempt from_string completions w = Returns () w'
    ∧ init_pools_calls w'
      = init_pools_calls w
        + (if forallb is_success completions
              && (length completions =? length names)
           then 1 else 0).
Proof.
  intros Hpending names Hmax Hlen. unfold attempt, bind.
  rewrite on_connect_runs by (rewrite Hpending; unfold INT_MIN, INT_MAX; lia).
  cbn zeta. fold names.
  assert (Hcount : pending_resolve_count_
                     (session (seeded from_string
                                (contact_points (config_ (session w)))
                                (port (config_ (session w))) w))
                   = Z.of_nat (length names)).
  { unfold seeded, with_session. cbn. rewrite Hpending.
    apply wrap_int_small. unfold INT_MIN, INT_MAX in *. lia. }
  assert (Hcalls : init_pools_calls
                     (seeded from_string
                        (contact_points (config_ (session w)))
                        (port (config_ (session w))) w)
                   = init_pools_calls w).
  { unfold seeded, with_session, init_pools_calls. cbn [effects add_effects].
    rewrite filter_app, length_app.
    rewrite (filter_none _ (_ <$> _)); [cbn [length]; lia|].
    intros e Hin Heq. subst e.
    apply list_elem_of_fmap in Hin as (seed & Heq & _). discriminate Heq. }
  rewrite Hcount.
  destruct (decide (Z.of_nat (length names) = 0%Z)) as [Hzero|Hsome].
  - assert (Hnone : length names = 0) by lia.
    assert (completions = [])
      by (destruct completions; [reflexivity|cbn in Hlen; lia]).
    subst completions.
    match goal with
    | |- context [init_pools ?w1] =>
        destruct (init_pools_counted w1) as (w' & Hrun & Hcalls' & _)
    end.
    rewrite Hrun. exists w'. split; [reflexivity|].
    rewrite Hcalls', Hcalls, Hnone. cbn. lia.
  - match goal with
    | |- context [for_each completions on_resolve ?w1] =>
        destruct (resolutions_run completions (length names) w1)
          as (w' & Hrun & Hcalls')
    end; [exact Hcount|lia|exact Hmax|exact Hlen|].
    exists w'. split; [exact Hrun|].
    rewrite Hcalls', Hcalls. reflexivity.
Qed.

End facts.

(** * The operations on concrete sessions *)

(** ** A second [connect] *)

(** C1, at a session that is CONNECTING after its first [connect] (its
    connect future is at address 0): a second [connect] gives the error
    "connect has already been called" to a fresh future at address 1,
    but returns the null pointer, and it has overwritten and cleared
    [connect_future_], which pointed to the first call's future. *)
Theorem second_connect_returns_null :
  let w := world_of (example_session SESSION_STATE_CONNECTING []
                       [free_worker] [] 0) in
  connect_future_ (session w) = Some 0
  ∧ connect (λ _, free_worker) 0 0 "ks" w
    = Returns None
        {| session := set_connect_future_ None (session w);
           effects := [set_error 1 connect_error];
           heap_top := 2 |}.
Proof. split; reflexivity. Qed.

(** ** [shutdown] before [connect] *)

(** C10, at a session that is NEW: [shutdown] gives the error "Session
    not connected" to a fresh future (at address 0), leaves the state NEW
    and calls no worker, but what it returns is the null pointer. *)
Theorem shutdown_new_returns_null :
  let w := {| session := new_Session (Address := string) (example_config []);
              effects := []; heap_top := 0 |} in
  shutdown w
  = Returns None
      {| session := new_Session (example_config []);
         effects := [set_error 0 shutdown_error];
         heap_top := 1 |}.
Proof. reflexivity. Qed.

(** ** Resolutions that fail *)

(** C2, at a session with one resolution outstanding: when it fails,
    [on_resolve] writes to stderr and leaves [pending_resolve_count_] at
    1; the counter is not at zero although nothing is outstanding any
    more, and [init_pools] has not been called. *)
Theorem failed_resolution_keeps_count :
  let w := with_session (set_pending_resolve_count_ 1)
             (world_of (example_session SESSION_STATE_CONNECTING
                          ["cassandra1.example.com"] [free_worker] [] 0)) in
  on_resolve (resolved "cassandra1.example.com" None) w
  = Returns ()
      (add_effects
         [fprintf_stderr "Unable to resolve %s:%d\n"
            "cassandra1.example.com" 9042] w)
  ∧ pending_resolve_count_ (session w) = 1%Z.
Proof. split; reflexivity. Qed.

(** C7, at a connect attempt with one literal contact point and two
    names, of which the first resolves and the second does not: after
    [on_connect] and both callbacks no resolution is outstanding, but
    [pending_resolve_count_] is 1 and [init_pools] was never called. *)
Theorem bootstrap_never_runs_after_failure :
  let w := world_of (example_session SESSION_STATE_CONNECTING
                       ["127.0.0.1"; "cassandra1.example.com";
                        "cassandra2.example.com"] [free_worker] [] 0) in
  ∃ w',
    attempt example_from_string
      [resolved "cassandra1.example.com" (Some "10.0.0.1");
       resolved "cassandra2.example.com" None] w
    = Returns () w'
    ∧ pending_resolve_count_ (session w') = 1%Z
    ∧ init_pools_calls w' = 0
    ∧ effects w'
      = [Resolver_resolve "cassandra1.example.com" 9042;
         Resolver_resolve "cassandra2.example.com" 9042;
         fprintf_stderr "Unable to resolve %s:%d\n"
           "cassandra2.example.com" 9042].
Proof. eexists. split; [vm_compute; reflexivity|]. repeat split. Qed.

(** ** Dispatch past the last worker *)

(** C3, at a session with two workers, the first free and the second
    saturated, and the cursor at the second: the request is offered to
    worker 1, which refuses; the next worker in rotation order is worker
    0, but the loop reads [io_workers_[2]]. *)
Theorem dispatch_does_not_wrap :
  let w := world_of (example_session SESSION_STATE_READY []
                       [free_worker; busy_worker] [7] 1) in
  on_execute w
  = Undefined (out_of_range 2 2)
      (with_session
         (set_request_future_queue_ (Some {| capacity := 2; items := [] |}))
         (add_effects [new_query_plan 7; IOWorker_execute 1 7 false] w)).
Proof. reflexivity. Qed.

(** C4, at a session with three workers of which only the last is
    saturated, and the cursor at the last: the second index used on
    [io_workers_] is 3, the size of the collection. *)
Theorem dispatch_index_out_of_range :
  let w := world_of (example_session SESSION_STATE_READY []
                       [free_worker; free_worker; busy_worker] [] 2) in
  current_io_worker_ (session w) = 2%Z
  ∧ length (io_workers_ (session w)) = 3
  ∧ on_execute_request 7 w
    = Undefined (out_of_range 3 3)
        (add_effects [new_query_plan 7; IOWorker_execute 2 7 false] w).
Proof. repeat split. Qed.

(** ** All workers busy *)

(** C8: a request that every worker refuses is not always failed, and
    is never destroyed.  At a READY session with two saturated workers,
    the cursor at worker 1 and request 7 queued, [on_execute] offers the
    request to worker 1 and then reads [io_workers_] at index 2, the size
    of the collection: worker 0 is never asked, and neither [set_error]
    nor [delete] for the request is among the effects.  With the cursor
    at worker 0 both workers are asked and the request is failed with
    "All workers are busy", and it is still not destroyed. *)
Theorem refused_request_never_resolved :
  let past := world_of (example_session SESSION_STATE_READY []
                          [busy_worker; busy_worker] [7] 1) in
  let first := world_of (example_session SESSION_STATE_READY []
                           [busy_worker; busy_worker] [7] 0) in
  on_execute past
  = Undefined (out_of_range 2 2)
      (with_session
         (set_request_future_queue_ (Some {| capacity := 2; items := [] |}))
         (add_effects [new_query_plan 7; IOWorker_execute 1 7 false] past))
  ∧ on_execute first
    = Returns ()
        (with_session
           (set_request_future_queue_ (Some {| capacity := 2; items := [] |}))
           (add_effects
              [new_query_plan 7; IOWorker_execute 0 7 false;
               IOWorker_execute 1 7 false; set_error 7 workers_busy_error]
              first))
  ∧ message workers_busy_error = "All workers are busy".
Proof. repeat split. Qed.

Lemma all_workers_refuse_witness :
  let w := world_of (example_session SESSION_STATE_READY []
                       [busy_worker; busy_worker] [7; 8] 0) in
  ∃ w',
    on_execute w = Returns () w'
    ∧ effects w' = effects w ++ all_refused 2 [7; 8]
    ∧ (∀ r, r ∈ [7; 8] → set_error r workers_busy_error ∈ effects w')
    ∧ (∀ r, operator_delete r ∉ all_refused (Address := string) 2 [7; 8])
    ∧ current_io_worker_ (session w') = current_io_worker_ (session w)
    ∧ state_ (session w') = state_ (session w)
    ∧ message workers_busy_error = "All workers are busy".
Proof.
  intros w.
  apply (all_workers_refuse w {| capacity := 2; items := [7; 8] |}).
  - reflexivity.
  - reflexivity.
  - repeat constructor.
  - vm_compute. reflexivity.
Defined.

(** ** The theorems at concrete sessions *)

Lemma execute_queue_full_witness :
  let w := world_of (example_session SESSION_STATE_READY []
                       [free_worker] [5; 6] 0) in
  execute 7 w
  = Returns ()
      {| session := session w;
         effects := effects w ++ [set_error 7 queue_full_error;
                                  operator_delete 7];
         heap_top := heap_top w |}
  ∧ message queue_full_error = "request queue full".
Proof.
  intros w.
  apply (execute_queue_full w {| capacity := 2; items := [5; 6] |} 7).
  - reflexivity.
  - vm_compute. reflexivity.
Defined.

(** Two connections are outstanding.  The first notification arrives
    alone, the second together with a spurious third. *)
Lemma readiness_exactly_once_witness :
  wake_ups [[Build_Host "127.0.0.1"];
            [Build_Host "127.0.0.2"; Build_Host "127.0.0.3"]] (awaiting 2)
  = Returns ()
      (with_session
         (λ s, set_connect_future_ None
                 (set_state_ SESSION_STATE_READY
                    (set_pending_connections_count_ (-1) s)))
         (add_effects [Policy_init ∅; set_result 0] (awaiting 2))).
Proof.
  apply (readiness_exactly_once 8 2
           [[Build_Host "127.0.0.1"];
            [Build_Host "127.0.0.2"; Build_Host "127.0.0.3"]] 0 (awaiting 2)).
  - reflexivity.
  - repeat constructor.
  - reflexivity.
  - vm_compute. discriminate.
  - vm_compute. reflexivity.
  - reflexivity.
Defined.

(** C5 as stated fails when no connection is outstanding.  A connect
    attempt without contact points bootstraps the pools of no host and
    leaves the counter at zero: the session loop has then processed as
    many CONNECTED events as the counter says, none, and a wake-up with
    nothing in the queue leaves the session CONNECTING with its connect
    future pending.  A notification that still arrives takes the counter
    below zero. *)
Lemma no_connection_outstanding_not_ready :
  let w := add_effects [call_init_pools] (awaiting 0) in
  on_connect example_from_string
    (world_of (example_session SESSION_STATE_CONNECTING []
                 [free_worker; free_worker] [] 0))
  = Returns () w
  ∧ pending_connections_count_ (session w) = 0%Z
  ∧ wake_ups [[]] w = Returns () w
  ∧ state_ (session w) = SESSION_STATE_CONNECTING
  ∧ connect_future_ (session w) = Some 0
  ∧ effects w = [call_init_pools]
  ∧ wake_ups [[Build_Host "127.0.0.1"]] w
    = Returns () (with_session (set_pending_connections_count_ (-1)) w).
Proof. repeat split. Qed.

(** Scenario A: two literal contact points, one worker, one connection
    per host. *)
Lemma pool_bootstrap_witness :
  let w_A := world_of (example_session SESSION_STATE_CONNECTING
                         ["127.0.0.1:9042"; "127.0.0.2:9042"]
                         [free_worker] [] 0) in
  let w := seeded example_from_string
             ["127.0.0.1:9042"; "127.0.0.2:9042"] 9042 w_A in
  (∃ w',
     init_pools w = Returns () w'
     ∧ pending_connections_count_ (session w')
       = (Z.of_nat (size (hosts_ (session w)))
          * Z.of_nat (length (io_workers_ (session w)))
          * core_connections_per_host (config_ (session w)))%Z
     ∧ effects w' = effects w ++ call_init_pools :: pool_requests (session w)
     ∧ NoDup (pool_requests (session w))
     ∧ ∀ e, e ∈ pool_requests (session w)
            ↔ ∃ h i, e = add_pool_q i h ∧ h ∈ hosts_ (session w)
                     ∧ i < length (io_workers_ (session w)))
  ∧ (∃ w' new,
       on_connect example_from_string w_A = Returns () w'
       ∧ pending_connections_count_ (session w') = 2%Z
       ∧ effects w' = effects w_A ++ new
       ∧ ∀ seed port_number, Resolver_resolve seed port_number ∉ new).
Proof.
  intros w_A w.
  apply (pool_bootstrap example_from_string w
           "127.0.0.1:9042" "127.0.0.2:9042"
           "127.0.0.1:9042" "127.0.0.2:9042" w_A).
  - vm_compute. discriminate.
  - vm_compute. discriminate.
  - reflexivity.
  - reflexivity.
  - reflexivity.
  - discriminate.
  - reflexivity.
  - reflexivity.
  - reflexivity.
  - reflexivity.
Defined.

(** * The rest of the session *)

(** Rewrites a loop that only emits the effects [g x], after the
    primitive actions have been run. *)
Ltac loop_of_effects g :=
  match goal with
  | |- context [for_each ?l _ ?w1] =>
      let Hloop := fresh in
      pose proof (for_each_emit l g w1) as Hloop;
      unfold emit, modify in Hloop; rewrite Hloop; clear Hloop
  end.

Section coverage.

Context {Address : Type} `{Countable Address} `{AddressOrder Address}.
Implicit Types (w : World (Address := Address)).
Implicit Types (s : Session (Address := Address)).
Implicit Types (es : list (Effect (Address := Address))).

Variable from_string : string → Z → option Address.
Variable new_IOWorker : nat → IOWorker.
Variable request_queue_init_rc : Z.
Variable event_queue_init_rc : Z.

(** ** [init] *)

Lemma set_io_workers_same s ws :
  io_workers_ s = ws → set_io_workers_ ws s = s.
Proof. destruct s; simpl; intros ->; reflexivity. Qed.

(** The worker loop of [init] as long as the workers' [init] succeeds. *)
Lemma init_io_workers_succeed (n i : nat) w :
  (∀ j, i ≤ j < i + n → init_rc (new_IOWorker j) = 0%Z) →
  init_io_workers new_IOWorker n i w
  = Returns 0%Z
      (with_session
         (λ s, set_io_workers_ (io_workers_ s ++ (new_IOWorker <$> seq i n)) s)
         w).
Proof.
  revert i w. induction n as [|n IH]; intros i w Hok.
  - cbn. unfold ret, with_session.
    rewrite app_nil_r, (set_io_workers_same _ _ eq_refl), world_eta.
    reflexivity.
  - cbn [init_io_workers seq fmap list_fmap].
    destruct (decide _) as [Hbad|_]; [exfalso; apply Hbad, Hok; lia|].
    run_prims. rewrite IH by (intros j Hj; apply Hok; lia).
    unfold with_session, set_io_workers_. cbn.
    rewrite <- app_assoc. reflexivity.
Qed.

(** The worker loop of [init] up to the first worker whose [init]
    fails. *)
Lemma init_io_workers_fail (n i k : nat) w :
  k < n →
  (∀ j, i ≤ j < i + k → init_rc (new_IOWorker j) = 0%Z) →
  init_rc (new_IOWorker (i + k)) ≠ 0%Z →
  init_io_workers new_IOWorker n i w
  = Returns (init_rc (new_IOWorker (i + k)))
      (with_session
         (λ s, set_io_workers_ (io_workers_ s ++ (new_IOWorker <$> seq i k)) s)
         w).
Proof.
  revert n i w. induction k as [|k IH]; intros n i w Hk Hok Hbad.
  - destruct n as [|n]; [lia|]. rewrite Nat.add_0_r in *.
    cbn [init_io_workers seq fmap list_fmap].
    destruct (decide _) as [_|Hzero]; [|contradiction].
    unfold ret, with_session.
    rewrite app_nil_r, (set_io_workers_same _ _ eq_refl), world_eta.
    reflexivity.
  - destruct n as [|n]; [lia|].
    cbn [init_io_workers seq fmap list_fmap].
    destruct (decide _) as [Hfirst|_]; [exfalso; apply Hfirst, Hok; lia|].
    run_prims.
    rewrite (IH n (S i)); [|lia|intros j Hj; apply Hok; lia
                           |replace (S i + k) with (i + S k) by lia; exact Hbad].
    replace (S i + k) with (i + S k) by lia.
    unfold with_session, set_io_workers_. cbn.
    rewrite <- app_assoc. reflexivity.
Qed.

(** The worker loop of [init] always returns, and touches the workers
    only. *)
Lemma init_io_workers_frame (n i : nat) w :
  ∃ rc ws, init_io_workers new_IOWorker n i w
           = Returns rc (with_session (set_io_workers_ ws) w).
Proof.
  revert i w. induction n as [|n IH]; intros i w.
  - exists 0%Z, (io_workers_ (session w)). cbn. unfold ret, with_session.
    rewrite (set_io_workers_same _ _ eq_refl), world_eta. reflexivity.
  - cbn [init_io_workers]. destruct (decide _) as [_|_].
    + eexists _, (io_workers_ (session w)). unfold ret, with_session.
      rewrite (set_io_workers_same _ _ eq_refl), world_eta. reflexivity.
    + run_prims.
      match goal with
      | |- context [init_io_workers _ n (S i) ?w1] =>
          destruct (IH (S i) w1) as (rc & ws & Hrun)
      end.
      exists rc, ws. rewrite Hrun. reflexivity.
Qed.

(** [init] always returns; it replaces the queues and adds workers, and
    leaves the rest of the session, the effects and the heap alone. *)
Lemma init_frame w :
  ∃ rc w',
    init new_IOWorker request_queue_init_rc event_queue_init_rc w
    = Returns rc w'
    ∧ init_keeps (session w) (session w')
    ∧ effects w' = effects w
    ∧ heap_top w' = heap_top w.
Proof.
  unfold init. run_prims.
  destruct (decide (request_queue_init_rc ≠ 0%Z)) as [_|_].
  { eexists _, _. split; [reflexivity|]. repeat split. }
  destruct (decide (event_queue_init_rc ≠ 0%Z)) as [_|_].
  { eexists _, _. split; [reflexivity|]. repeat split. }
  match goal with
  | |- context [init_io_workers _ ?n 0 ?w1] =>
      destruct (init_io_workers_frame n 0 w1) as (rc & ws & Hrun)
  end.
  eexists _, _. split; [exact Hrun|]. repeat split.
Qed.

(** X1: with every return code zero, [init] returns 0, creates the two
    queues empty with the configured capacities and appends as many
    workers as [thread_count_io] says, in the order of construction. *)
Theorem init_creates_queues_and_workers w :
  request_queue_init_rc = 0%Z →
  event_queue_init_rc = 0%Z →
  (∀ j, j < Z.to_nat (thread_count_io (config_ (session w))) →
        init_rc (new_IOWorker j) = 0%Z) →
  init new_IOWorker request_queue_init_rc event_queue_init_rc w
  = Returns 0%Z
      (with_session
         (λ s, set_io_workers_
                 (io_workers_ s
                  ++ (new_IOWorker
                        <$> seq 0 (Z.to_nat (thread_count_io (config_ s)))))
                 (set_event_queue_
                    (Some {| capacity := Z.to_nat (queue_size_event (config_ s));
                             items := [] |})
                    (set_request_future_queue_
                       (Some {| capacity := Z.to_nat (queue_size_io (config_ s));
                                items := [] |}) s))) w).
Proof.
  intros Hrq Heq Hworkers. unfold init. run_prims.
  destruct (decide (request_queue_init_rc ≠ 0%Z)) as [Hbad|_]; [contradiction|].
  destruct (decide (event_queue_init_rc ≠ 0%Z)) as [Hbad|_]; [contradiction|].
  rewrite init_io_workers_succeed by (intros j Hj; apply Hworkers; lia).
  reflexivity.
Qed.

(** X2: when the [init] of worker number [k] is the first to fail,
    [init] returns that worker's return code at once: the [k] workers
    before it are in the collection, the failing one and those after it
    are not. *)
Theorem init_stops_at_failing_worker (k : nat) w :
  request_queue_init_rc = 0%Z →
  event_queue_init_rc = 0%Z →
  k < Z.to_nat (thread_count_io (config_ (session w))) →
  (∀ j, j < k → init_rc (new_IOWorker j) = 0%Z) →
  init_rc (new_IOWorker k) ≠ 0%Z →
  ∃ w',
    init new_IOWorker request_queue_init_rc event_queue_init_rc w
    = Returns (init_rc (new_IOWorker k)) w'
    ∧ io_workers_ (session w')
      = io_workers_ (session w) ++ (new_IOWorker <$> seq 0 k)
    ∧ length (io_workers_ (session w'))
      < length (io_workers_ (session w))
        + Z.to_nat (thread_count_io (config_ (session w))).
Proof.
  intros Hrq Heq Hk Hok Hbad. unfold init. run_prims.
  destruct (decide (request_queue_init_rc ≠ 0%Z)) as [Hne|_]; [contradiction|].
  destruct (decide (event_queue_init_rc ≠ 0%Z)) as [Hne|_]; [contradiction|].
  rewrite (init_io_workers_fail _ 0 k); [|exact Hk|intros j Hj; apply Hok; lia
                                         |exact Hbad].
  eexists. split; [reflexivity|]. split; [reflexivity|].
  cbn. rewrite length_app, length_fmap, length_seq. lia.
Qed.

(** X3: when the [init] of a queue fails, [init] returns its code and
    constructs no worker.  If it is the request queue, the event queue
    is not created either: [event_queue_] is left as it was. *)
Theorem init_stops_at_failing_queue (rc other : Z) w :
  rc ≠ 0%Z →
  init new_IOWorker rc other w
  = Returns rc
      (with_session
         (λ s, set_request_future_queue_
                 (Some {| capacity := Z.to_nat (queue_size_io (config_ s));
                          items := [] |}) s) w)
  ∧ init new_IOWorker 0 rc w
    = Returns rc
        (with_session
           (λ s, set_event_queue_
                   (Some {| capacity := Z.to_nat (queue_size_event (config_ s));
                            items := [] |})
                   (set_request_future_queue_
                      (Some {| capacity := Z.to_nat (queue_size_io (config_ s));
                               items := [] |}) s)) w).
Proof.
  intros Hrc. split; unfold init; run_prims.
  - destruct (decide (rc ≠ 0%Z)) as [_|Hzero]; [reflexivity|contradiction].
  - destruct (decide (0 ≠ 0)%Z) as [Hne|_]; [contradiction|].
    destruct (decide (rc ≠ 0%Z)) as [_|Hzero]; [reflexivity|contradiction].
Qed.

(** ** The first [connect] *)

(** X4: on a NEW session [connect] returns the future it has just
    created and stored in [connect_future_], moves the state to
    CONNECTING, stores the keyspace, starts the session thread and
    signals [async_connect_], in this order.  It does so whatever [init]
    returns: the return code of [init] is not looked at.  Hosts, counters
    and cursor are as before. *)
Theorem connect_first_call (ks : string) w :
  state_ (session w) = SESSION_STATE_NEW →
  ∃ w',
    connect new_IOWorker request_queue_init_rc event_queue_init_rc ks w
    = Returns (Some (heap_top w)) w'
    ∧ state_ (session w') = SESSION_STATE_CONNECTING
    ∧ connect_future_ (session w') = Some (heap_top w)
    ∧ keyspace_ (session w') = ks
    ∧ effects w' = effects w ++ [uv_thread_create; uv_async_send]
    ∧ heap_top w' = S (heap_top w)
    ∧ hosts_ (session w') = hosts_ (session w)
    ∧ pending_resolve_count_ (session w') = pending_resolve_count_ (session w)
    ∧ pending_connections_count_ (session w')
      = pending_connections_count_ (session w)
    ∧ current_io_worker_ (session w') = current_io_worker_ (session w).
Proof.
  intros Hnew. unfold connect. run_prims. cbn [state_ set_connect_future_].
  destruct (decide (state_ (session w) = SESSION_STATE_NEW)) as [_|Hne];
    [|contradiction].
  match goal with
  | |- context [init _ _ _ ?w1] =>
      destruct (init_frame w1) as (rc & w2 & Hrun & Hkeeps & Heffects & Htop)
  end.
  rewrite Hrun. cbn in Heffects, Htop.
  destruct Hkeeps as (Hstate & _ & Hfuture & _ & Hhosts & _ & Hres & Hconn & Hcur).
  cbn in Hstate, Hfuture, Hhosts, Hres, Hconn, Hcur.
  eexists. split.
  { unfold set_keyspace_. cbn [session connect_future_].
    rewrite Hfuture. reflexivity. }
  cbn. rewrite Heffects, Htop, <- app_assoc.
  repeat split; assumption.
Qed.

(** ** [shutdown] of a connected session *)

(** X5: on a READY or CONNECTING session [shutdown] returns the future
    it has just created and stored in [shutdown_future_], moves the state
    to DISCONNECTING and calls [shutdown_q] on every worker once, in the
    order of the collection; nothing else changes. *)
Theorem shutdown_accepted w :
  state_ (session w) = SESSION_STATE_READY
  ∨ state_ (session w) = SESSION_STATE_CONNECTING →
  shutdown w
  = Returns (Some (heap_top w))
      {| session := set_state_ SESSION_STATE_DISCONNECTING
                      (set_shutdown_future_ (Some (heap_top w)) (session w));
         effects := effects w
                    ++ (shutdown_q <$> seq 0 (length (io_workers_ (session w))));
         heap_top := S (heap_top w) |}.
Proof.
  intros Hstate. unfold shutdown. run_prims. cbn [state_ set_shutdown_future_].
  destruct Hstate as [Hstate|Hstate]; rewrite Hstate.
  - destruct (decide (SESSION_STATE_READY = SESSION_STATE_READY))
      as [_|Hne]; [|contradiction].
    cbn. unfold worker_indices. loop_of_effects (shutdown_q (Address := Address)). reflexivity.
  - destruct (decide (SESSION_STATE_CONNECTING = SESSION_STATE_READY))
      as [Heq|_]; [discriminate Heq|].
    cbn. rewrite Hstate.
    destruct (decide (SESSION_STATE_CONNECTING = SESSION_STATE_CONNECTING))
      as [_|Hne]; [|contradiction].
    cbn. unfold worker_indices. loop_of_effects (shutdown_q (Address := Address)). reflexivity.
Qed.

(** ** Shutdown events *)

Lemma join_done_workers_runs (ws : list IOWorker) (i count : nat) w :
  join_done_workers ws i count w
  = Returns (count + length (done_workers ws i))
      (add_effects (IOWorker_join <$> done_workers ws i) w).
Proof.
  revert i count w. induction ws as [|x ws IH]; intros i count w.
  - cbn. unfold ret. rewrite add_effects_nil, Nat.add_0_r. reflexivity.
  - cbn [join_done_workers done_workers]. destruct (is_shutdown_done_ x).
    + run_prims. rewrite IH. cbn [length fmap list_fmap].
      unfold add_effects. cbn [session effects heap_top].
      rewrite <- app_assoc, Nat.add_succ_r. reflexivity.
    + apply IH.
Qed.

Lemma done_workers_all (ws : list IOWorker) (i : nat) :
  Forall (λ x, is_shutdown_done_ x = true) ws →
  done_workers ws i = seq i (length ws).
Proof.
  revert i. induction ws as [|x ws IH]; intros i Hall; [reflexivity|].
  apply Forall_cons in Hall as [Hx Hall].
  cbn [done_workers length seq]. rewrite Hx, IH by exact Hall. reflexivity.
Qed.

Lemma done_workers_some (ws : list IOWorker) (i : nat) :
  Exists (λ x, is_shutdown_done_ x = false) ws →
  length (done_workers ws i) < length ws.
Proof.
  assert (Hle : ∀ l j, length (done_workers l j) ≤ length l).
  { induction l as [|x l IH]; intros j; [reflexivity|].
    cbn [done_workers length]. destruct (is_shutdown_done_ x); cbn [length].
    - specialize (IH (S j)). lia.
    - specialize (IH (S j)). lia. }
  revert i. induction ws as [|x ws IH]; intros i Hsome.
  - inversion Hsome.
  - cbn [done_workers length]. apply Exists_cons in Hsome as [Hx|Hsome].
    + rewrite Hx. specialize (Hle ws (S i)). lia.
    + destruct (is_shutdown_done_ x); cbn [length];
        specialize (IH (S i) Hsome); lia.
Qed.

(** A SHUTDOWN event while some worker is not done joins the workers
    that are done and changes nothing else. *)
Lemma on_event_payload_shutdown_waits (payload : Payload) w :
  type payload = ON_SHUTDOWN →
  Exists (λ x, is_shutdown_done_ x = false) (io_workers_ (session w)) →
  on_event_payload payload w
  = Returns ()
      (add_effects
         (IOWorker_join <$> done_workers (io_workers_ (session w)) 0) w).
Proof.
  intros Htype Hsome. unfold on_event_payload. rewrite Htype. run_prims.
  rewrite join_done_workers_runs. cbn [Nat.add].
  pose proof (done_workers_some _ 0 Hsome) as Hlt.
  destruct (decide _) as [Heq|_]; [lia|]. reflexivity.
Qed.

(** A SHUTDOWN event when every worker is done. *)
Lemma on_event_payload_shutdown_done (payload : Payload) w :
  type payload = ON_SHUTDOWN →
  Forall (λ x, is_shutdown_done_ x = true) (io_workers_ (session w)) →
  on_event_payload payload w
  = match shutdown_future_ (session w) with
    | Some f =>
        Returns ()
          (with_session
             (λ s, set_state_ SESSION_STATE_DISCONNECTED
                     (set_shutdown_future_ None s))
             (add_effects
                ((IOWorker_join <$> seq 0 (length (io_workers_ (session w))))
                 ++ [set_result f; uv_stop]) w))
    | None =>
        Undefined null_dereference
          (add_effects
             (IOWorker_join <$> seq 0 (length (io_workers_ (session w)))) w)
    end.
Proof.
  intros Htype Hall. unfold on_event_payload. rewrite Htype. run_prims.
  rewrite join_done_workers_runs, (done_workers_all _ 0 Hall).
  rewrite length_seq. cbn [Nat.add].
  destruct (decide _) as [_|Hne]; [|contradiction].
  cbn [add_effects session].
  destruct (shutdown_future_ (session w)) as [f|]; [|reflexivity].
  unfold with_session, add_effects. cbn [session effects heap_top].
  rewrite <- !app_assoc. reflexivity.
Qed.

(** One wake-up of [on_event] with a single event in the queue. *)
Lemma on_event_single (cap : nat) (payload : Payload) w :
  event_queue_ (session w)
  = Some {| capacity := cap; items := [payload] |} →
  on_event w
  = on_event_payload payload
      (with_session
         (set_event_queue_ (Some {| capacity := cap; items := [] |})) w).
Proof.
  intros Hq. unfold on_event. run_prims. rewrite Hq.
  cbn [capacity items on_event_loop]. run_prims.
  unfold with_session.
  destruct (on_event_payload payload _) as [[] w'|f w']; reflexivity.
Qed.


(** The loop over SHUTDOWN events while some worker is not done. *)
Lemma on_event_loop_shutdown_waits (cap : nat) (run : list Payload) w :
  event_queue_ (session w) = Some {| capacity := cap; items := run |} →
  Forall (λ p, type p = ON_SHUTDOWN) run →
  Exists (λ x, is_shutdown_done_ x = false) (io_workers_ (session w)) →
  on_event_loop cap run w
  = Returns ()
      (with_session
         (set_event_queue_ (Some {| capacity := cap; items := [] |}))
         (add_effects
            (run ≫= λ _, IOWorker_join
                           <$> done_workers (io_workers_ (session w)) 0) w)).
Proof.
  revert w. induction run as [|p run IH]; intros w Hq Hrun Hsome.
  - cbn. unfold ret, with_session, add_effects. cbn.
    rewrite app_nil_r, (set_event_queue_same _ _ Hq), world_eta. reflexivity.
  - apply Forall_cons in Hrun as [Hp Hrun].
    cbn [on_event_loop]. run_prims.
    match goal with
    | |- context [on_event_payload p ?w1] =>
        rewrite (on_event_payload_shutdown_waits p w1 Hp Hsome)
    end.
    cbn [session].
    rewrite IH; [|reflexivity|exact Hrun|exact Hsome].
    unfold with_session, add_effects, set_event_queue_.
    cbn [session effects heap_top mbind list_bind io_workers_].
    rewrite <- app_assoc. reflexivity.
Qed.

(** X7: as long as some worker's shutdown-completion flag is not set,
    SHUTDOWN events only join: every event joins each worker whose flag
    is set (again, if an earlier event joined it already); the state and
    the shutdown future are untouched and the loop is not stopped. *)
Theorem shutdown_waits_for_every_worker (cap : nat) (run : list Payload) w :
  event_queue_ (session w) = Some {| capacity := cap; items := run |} →
  Forall (λ p, type p = ON_SHUTDOWN) run →
  Exists (λ x, is_shutdown_done_ x = false) (io_workers_ (session w)) →
  on_event w
  = Returns ()
      (with_session
         (set_event_queue_ (Some {| capacity := cap; items := [] |}))
         (add_effects
            (run ≫= λ _, IOWorker_join
                           <$> done_workers (io_workers_ (session w)) 0) w)).
Proof.
  intros Hq Hrun Hsome. unfold on_event. run_prims. rewrite Hq.
  cbn [capacity items].
  apply on_event_loop_shutdown_waits; assumption.
Qed.

(** ** Events after a second [connect] or [shutdown] *)

(** The CONNECTED event that brings the counter to zero when
    [connect_future_] is null. *)
Lemma on_event_payload_fires_null (payload : Payload) w :
  type payload = ON_CONNECTED →
  pending_connections_count_ (session w) = 1%Z →
  connect_future_ (session w) = None →
  on_event_payload payload w
  = Undefined null_dereference
      (with_session
         (λ s, set_state_ SESSION_STATE_READY
                 (set_pending_connections_count_ 0 s))
         (add_effects [Policy_init (hosts_ (session w))] w)).
Proof.
  intros Htype Hone Hf. unfold on_event_payload. rewrite Htype. run_prims. cbn.
  rewrite Hone. change (wrap_int (1 - 1)) with 0%Z.
  destruct (decide (0 = 0)%Z) as [_|Hne]; [|contradiction].
  cbn. rewrite Hf. reflexivity.
Qed.

(** One wake-up of [on_event] on as many CONNECTED events as are
    outstanding comes down to the last event with the counter at one. *)
Lemma on_event_reaches_last (cap : nat) (run : list Payload)
    (last : Payload) w :
  event_queue_ (session w)
  = Some {| capacity := cap; items := run ++ [last] |} →
  Forall (λ p, type p = ON_CONNECTED) run →
  pending_connections_count_ (session w) = Z.of_nat (S (length run)) →
  (Z.of_nat (S (length run)) ≤ INT_MAX)%Z →
  on_event w
  = on_event_payload last
      (with_session
         (λ s, set_event_queue_ (Some {| capacity := cap; items := [] |})
                 (set_pending_connections_count_ 1 s)) w).
Proof.
  intros Hq Hrun Hc Hmax. unfold INT_MAX in Hmax.
  unfold on_event. run_prims. rewrite Hq. cbn [capacity items].
  rewrite (on_event_loop_countdown cap run [last] _ w Hrun Hc);
    [|unfold INT_MIN, INT_MAX; lia| |exact Hq].
  - cbn [on_event_loop]. run_prims.
    replace (wrap_int (Z.of_nat (S (length run)) - Z.of_nat (length run)))
      with 1%Z by (rewrite wrap_int_small; unfold INT_MIN, INT_MAX; lia).
    unfold with_session, set_event_queue_, set_pending_connections_count_.
    cbn [session effects heap_top state_ io_workers_ keyspace_
         connect_future_ shutdown_future_ hosts_ config_
         request_future_queue_ event_queue_ pending_resolve_count_
         pending_connections_count_ current_io_worker_].
    destruct (on_event_payload last _) as [[] w'|f w']; reflexivity.
  - intros j Hj. rewrite wrap_int_small; unfold INT_MIN, INT_MAX; lia.
Qed.

(** X8: a second [connect] while the session is still connecting makes
    the last CONNECTED event dereference the null [connect_future_]: the
    policy has been initialised and the state set to READY, but no
    future is resolved, neither the first call's nor the second's. *)
Theorem second_connect_breaks_readiness (ks : string) (cap : nat)
    (events : list Payload) w :
  state_ (session w) ≠ SESSION_STATE_NEW →
  event_queue_ (session w) = Some {| capacity := cap; items := events |} →
  Forall (λ p, type p = ON_CONNECTED) events →
  pending_connections_count_ (session w) = Z.of_nat (length events) →
  0 < length events →
  (Z.of_nat (length events) ≤ INT_MAX)%Z →
  ∃ w',
    bind (connect new_IOWorker request_queue_init_rc event_queue_init_rc ks)
      (λ _, on_event) w
    = Undefined null_dereference w'
    ∧ state_ (session w') = SESSION_STATE_READY
    ∧ effects w'
      = effects w ++ [set_error (heap_top w) connect_error;
                      Policy_init (hosts_ (session w))].
Proof.
  intros Hstate Hq Hevents Hc Hpos Hmax.
  destruct events as [|last run _] using rev_ind; [cbn in Hpos; lia|].
  rewrite length_app in *. cbn [length] in *.
  replace (length run + 1) with (S (length run)) in * by lia.
  apply Forall_app in Hevents as [Hrun Hlast].
  rewrite Forall_singleton in Hlast.
  unfold bind at 1. rewrite (connect_not_new _ _ _ _ _ Hstate).
  rewrite (on_event_reaches_last cap run last); [|exact Hq|exact Hrun|exact Hc
                                                  |exact Hmax].
  rewrite on_event_payload_fires_null; [|exact Hlast|reflexivity|reflexivity].
  eexists. split; [reflexivity|]. split; [reflexivity|].
  cbn. rewrite <- app_assoc. reflexivity.
Qed.

(** X9: a [shutdown] accepted while the session is CONNECTING does not
    stop it from becoming READY: when the outstanding CONNECTED events
    arrive, the state goes from DISCONNECTING to READY and the connect
    future is resolved, while the workers have been told to shut down
    and the shutdown future is still pending. *)
Theorem readiness_overrides_shutdown (cap : nat) (events : list Payload)
    (f : ptr) w :
  state_ (session w) = SESSION_STATE_CONNECTING →
  event_queue_ (session w) = Some {| capacity := cap; items := events |} →
  Forall (λ p, type p = ON_CONNECTED) events →
  pending_connections_count_ (session w) = Z.of_nat (length events) →
  0 < length events →
  (Z.of_nat (length events) ≤ INT_MAX)%Z →
  connect_future_ (session w) = Some f →
  ∃ w',
    bind shutdown (λ _, on_event) w = Returns () w'
    ∧ state_ (session w') = SESSION_STATE_READY
    ∧ shutdown_future_ (session w') = Some (heap_top w)
    ∧ effects w'
      = effects w
        ++ (shutdown_q <$> seq 0 (length (io_workers_ (session w))))
        ++ [Policy_init (hosts_ (session w)); set_result f].
Proof.
  intros Hstate Hq Hevents Hc Hpos Hmax Hf.
  destruct events as [|last run _] using rev_ind; [cbn in Hpos; lia|].
  rewrite length_app in *. cbn [length] in *.
  replace (length run + 1) with (S (length run)) in * by lia.
  apply Forall_app in Hevents as [Hrun Hlast].
  rewrite Forall_singleton in Hlast.
  unfold bind at 1. rewrite (shutdown_accepted w (or_intror Hstate)).
  rewrite (on_event_reaches_last cap run last); [|exact Hq|exact Hrun|exact Hc
                                                  |exact Hmax].
  rewrite (on_event_payload_fires last f); [|exact Hlast|reflexivity|exact Hf].
  eexists. split; [reflexivity|]. split; [reflexivity|].
  split; [reflexivity|].
  cbn. rewrite <- app_assoc. reflexivity.
Qed.

(** X10: a second [shutdown] while the session is DISCONNECTING makes
    the SHUTDOWN event that finds every worker done dereference the null
    [shutdown_future_], after joining the workers: the first call's
    future is never resolved, the session does not become DISCONNECTED
    and the loop is not stopped. *)
Theorem second_shutdown_breaks_completion (cap : nat) (payload : Payload) w :
  state_ (session w) = SESSION_STATE_DISCONNECTING →
  event_queue_ (session w)
  = Some {| capacity := cap; items := [payload] |} →
  type payload = ON_SHUTDOWN →
  Forall (λ x, is_shutdown_done_ x = true) (io_workers_ (session w)) →
  ∃ w',
    bind shutdown (λ _, on_event) w = Undefined null_dereference w'
    ∧ state_ (session w') = SESSION_STATE_DISCONNECTING
    ∧ effects w'
      = effects w
        ++ set_error (heap_top w) shutdown_error
           :: (IOWorker_join <$> seq 0 (length (io_workers_ (session w)))).
Proof.
  intros Hstate Hq Htype Hall.
  unfold bind at 1.
  rewrite shutdown_not_connected by (rewrite Hstate; discriminate).
  rewrite (on_event_single cap payload) by exact Hq.
  rewrite on_event_payload_shutdown_done; [|exact Htype|exact Hall].
  cbn [with_session session shutdown_future_ set_shutdown_future_
       set_event_queue_].
  eexists. split; [reflexivity|]. split; [exact Hstate|].
  cbn. rewrite <- app_assoc. reflexivity.
Qed.

(** ** Dispatch inside the collection *)

Lemma on_execute_rotation (cap : nat) (rs : list ptr) (c : nat) w :
  request_future_queue_ (session w) = Some {| capacity := cap; items := rs |} →
  current_io_worker_ (session w) = Z.of_nat c →
  c < length (io_workers_ (session w)) →
  Forall (λ x, saturated x = false) (io_workers_ (session w)) →
  (Z.of_nat (length (io_workers_ (session w))) ≤ INT_MAX)%Z →
  on_execute w
  = Returns ()
      (with_session
         (λ s, set_request_future_queue_
                 (Some {| capacity := cap; items := [] |})
                 (set_current_io_worker_
                    (Z.of_nat ((c + length rs)
                               `mod` length (io_workers_ (session w)))) s))
         (add_effects (rotation c (length (io_workers_ (session w))) rs) w)).
Proof.
  intros Hq Hc Hlt Hfree Hmax.
  unfold on_execute. run_prims. rewrite Hq. cbn [capacity items].
  apply (on_execute_loop_rotation cap rs c w Hq Hc Hlt Hfree Hmax).
Qed.

(** X11: with every worker accepting, [on_execute] empties the queue
    and hands the requests round the workers in queue order: the [k]-th
    request goes to worker [(c + k) mod W], where [c] is the cursor at
    the start and [W] the number of workers; no request is failed, and
    the cursor ends [N] places further round, for [N] requests. *)
Theorem round_robin_when_all_accept (cap : nat) (rs : list ptr) (c : nat) w :
  request_future_queue_ (session w) = Some {| capacity := cap; items := rs |} →
  current_io_worker_ (session w) = Z.of_nat c →
  c < length (io_workers_ (session w)) →
  Forall (λ x, saturated x = false) (io_workers_ (session w)) →
  (Z.of_nat (length (io_workers_ (session w))) ≤ INT_MAX)%Z →
  ∃ w',
    on_execute w = Returns () w'
    ∧ effects w' = effects w ++ rotation c (length (io_workers_ (session w))) rs
    ∧ (∀ k r, rs !! k = Some r →
         effects w' !! (length (effects w) + (2 * k + 1))
         = Some (IOWorker_execute
                   ((c + k) `mod` length (io_workers_ (session w))) r true))
    ∧ length (effects w') = length (effects w) + 2 * length rs
    ∧ current_io_worker_ (session w')
      = Z.of_nat ((c + length rs) `mod` length (io_workers_ (session w)))
    ∧ request_future_queue_ (session w')
      = Some {| capacity := cap; items := [] |}.
Proof.
  intros Hq Hc Hlt Hfree Hmax.
  eexists. split.
  { apply (on_execute_rotation cap rs c w Hq Hc Hlt Hfree Hmax). }
  cbn [with_session add_effects session effects].
  split; [reflexivity|]. split; [|split; [|split; reflexivity]].
  - intros k r Hk. rewrite lookup_app_r by lia.
    replace (length (effects w) + (2 * k + 1) - length (effects w))
      with (2 * k + 1) by lia.
    apply rotation_lookup; assumption.
  - rewrite length_app. f_equal.
    clear. generalize c. induction rs as [|r rs IH]; intros c0; [reflexivity|].
    cbn [rotation length]. rewrite IH. lia.
Qed.

(** X12: a request goes to the first worker at or after the cursor
    that accepts it, when there is one before the end of the collection.
    The workers from the cursor up to it are asked once each, in order,
    and refuse; no worker before the cursor or after the accepting one is
    asked; the request is not failed; the cursor moves to just past the
    accepting worker, modulo the number of workers. *)
Theorem first_free_worker_gets_request (r : ptr) (c j : nat) (x : IOWorker) w :
  current_io_worker_ (session w) = Z.of_nat c →
  c ≤ j →
  (∀ i y, c ≤ i < j → io_workers_ (session w) !! i = Some y →
          saturated y = true) →
  io_workers_ (session w) !! j = Some x →
  saturated x = false →
  (Z.of_nat (length (io_workers_ (session w))) ≤ INT_MAX)%Z →
  on_execute_request r w
  = Returns ()
      (with_session
         (set_current_io_worker_
            (Z.of_nat (S j `mod` length (io_workers_ (session w)))))
         (add_effects
            (new_query_plan r :: refusals r c (j - c)
               ++ [IOWorker_execute j r true]) w)).
Proof. apply on_execute_request_forward. Qed.

(** X13: when the cursor is not at the first worker and no worker from
    the cursor to the end of the collection accepts the request at the
    head of the queue, [on_execute] reads [io_workers_] at the index
    equal to its size, after the refusals: the workers before the cursor
    are not asked, the request is not failed, and the requests behind it
    are not looked at. *)
Theorem probe_runs_past_end (cap : nat) (r : ptr) (rest : list ptr)
    (c : nat) w :
  request_future_queue_ (session w)
  = Some {| capacity := cap; items := r :: rest |} →
  current_io_worker_ (session w) = Z.of_nat c →
  0 < c ≤ length (io_workers_ (session w)) →
  (∀ i y, c ≤ i → io_workers_ (session w) !! i = Some y →
          saturated y = true) →
  (Z.of_nat (length (io_workers_ (session w))) < 2 ^ 64)%Z →
  on_execute w
  = Undefined
      (out_of_range (Z.of_nat (length (io_workers_ (session w))))
         (length (io_workers_ (session w))))
      (with_session
         (set_request_future_queue_
            (Some {| capacity := cap; items := rest |}))
         (add_effects
            (new_query_plan r
               :: refusals r c (length (io_workers_ (session w)) - c)) w)).
Proof.
  intros Hq Hc Hrange Hsat Hsize.
  unfold on_execute. run_prims. rewrite Hq.
  cbn [capacity items on_execute_loop]. run_prims.
  match goal with
  | |- context [on_execute_request r ?w1] =>
      rewrite (on_execute_request_past_end r c w1 Hc Hrange Hsat Hsize)
  end.
  reflexivity.
Qed.

(** ** [execute] and the queue *)

Lemma for_each_app {A} (l1 l2 : list A) (body : A → M World ()) w :
  for_each (l1 ++ l2) body w
  = bind (for_each l1 body) (λ _, for_each l2 body) w.
Proof.
  revert w. induction l1 as [|a l1 IH]; intros w; [reflexivity|].
  cbn [app for_each]. unfold bind in *.
  destruct (body a w) as [[] w1|f w1]; [apply IH|reflexivity].
Qed.

(** Requests executed while there is room go to the back of the queue,
    in order. *)
Lemma for_each_execute_queued (cap : nat) (queued rs : list ptr) w :
  request_future_queue_ (session w)
  = Some {| capacity := cap; items := queued |} →
  length queued + length rs ≤ cap →
  for_each rs execute w
  = Returns ()
      (with_session
         (set_request_future_queue_
            (Some {| capacity := cap; items := queued ++ rs |})) w).
Proof.
  revert queued w. induction rs as [|r rs IH]; intros queued w Hq Hroom.
  - cbn. unfold ret, with_session.
    rewrite app_nil_r, (set_request_future_queue_same _ _ Hq), world_eta.
    reflexivity.
  - cbn [for_each length] in *. unfold bind at 1.
    unfold execute at 1. run_prims. rewrite Hq.
    unfold enqueue, queue_full. cbn [capacity items].
    rewrite bool_decide_eq_false_2 by lia. cbn [fst snd].
    rewrite (IH (queued ++ [r])); [|reflexivity|rewrite length_app; cbn; lia].
    unfold with_session, set_request_future_queue_. cbn.
    rewrite <- app_assoc. reflexivity.
Qed.

(** Requests executed on a full queue are failed and destroyed, one
    after the other. *)
Lemma for_each_execute_rejected (q : AsyncQueue ptr) (rs : list ptr) w :
  request_future_queue_ (session w) = Some q →
  queue_full q = true →
  for_each rs execute w
  = Returns ()
      (add_effects
         (r ← rs; [set_error r queue_full_error; operator_delete r]) w).
Proof.
  revert w. induction rs as [|r rs IH]; intros w Hq Hfull.
  - cbn. unfold ret. rewrite add_effects_nil. reflexivity.
  - cbn [for_each]. unfold bind at 1.
    unfold execute at 1. run_prims. rewrite Hq, (enqueue_full _ _ Hfull).
    cbn [fst snd]. rewrite (set_request_future_queue_same _ _ Hq).
    rewrite IH; [|exact Hq|exact Hfull].
    unfold add_effects. cbn [session effects heap_top mbind list_bind app].
    rewrite <- !app_assoc. reflexivity.
Qed.

(** X14: requests executed on an empty queue, and then dispatched with
    every worker accepting: those that fit the queue are handed round
    the workers in the order in which they were executed; those executed
    after the queue had filled up have been failed with "request queue
    full" and destroyed, and no worker ever sees them. *)
Theorem execute_then_dispatch_in_order (cap : nat)
    (accepted rejected : list ptr) (c : nat) w :
  request_future_queue_ (session w) = Some {| capacity := cap; items := [] |} →
  length accepted ≤ cap →
  rejected = [] ∨ length accepted = cap →
  current_io_worker_ (session w) = Z.of_nat c →
  c < length (io_workers_ (session w)) →
  Forall (λ x, saturated x = false) (io_workers_ (session w)) →
  (Z.of_nat (length (io_workers_ (session w))) ≤ INT_MAX)%Z →
  ∃ w',
    bind (for_each (accepted ++ rejected) execute) (λ _, on_execute) w
    = Returns () w'
    ∧ effects w'
      = effects w
        ++ (r ← rejected; [set_error r queue_full_error; operator_delete r])
        ++ rotation c (length (io_workers_ (session w))) accepted
    ∧ request_future_queue_ (session w')
      = Some {| capacity := cap; items := [] |}.
Proof.
  intros Hq Hfit Hover Hc Hlt Hfree Hmax.
  unfold bind at 1. rewrite for_each_app. unfold bind at 1.
  rewrite (for_each_execute_queued cap [] accepted w Hq) by (cbn; lia).
  cbn [app].
  destruct Hover as [->|Hfull].
  - cbn [for_each]. unfold ret.
    rewrite (on_execute_rotation cap accepted c); try assumption;
      [|reflexivity].
    eexists. split; [reflexivity|]. split; reflexivity.
  - rewrite (for_each_execute_rejected {| capacity := cap; items := accepted |});
      [|reflexivity|unfold queue_full; cbn; apply bool_decide_eq_true_2; lia].
    rewrite (on_execute_rotation cap accepted c); try assumption;
      [|reflexivity].
    eexists. split; [reflexivity|]. split; [|reflexivity].
    cbn. rewrite <- app_assoc. reflexivity.
Qed.

(** [init] always creates the request queue, empty and with the
    configured capacity, before anything can fail. *)
Lemma init_request_queue w :
  ∃ rc w',
    init new_IOWorker request_queue_init_rc event_queue_init_rc w
    = Returns rc w'
    ∧ request_future_queue_ (session w')
      = Some {| capacity := Z.to_nat (queue_size_io (config_ (session w)));
                items := [] |}
    ∧ init_keeps (session w) (session w')
    ∧ effects w' = effects w
    ∧ heap_top w' = heap_top w.
Proof.
  unfold init. run_prims.
  destruct (decide (request_queue_init_rc ≠ 0%Z)) as [_|_].
  { eexists _, _. split; [reflexivity|]. repeat split. }
  destruct (decide (event_queue_init_rc ≠ 0%Z)) as [_|_].
  { eexists _, _. split; [reflexivity|]. repeat split. }
  match goal with
  | |- context [init_io_workers _ ?n 0 ?w1] =>
      destruct (init_io_workers_frame n 0 w1) as (rc & ws & Hrun)
  end.
  eexists _, _. split; [exact Hrun|]. repeat split.
Qed.

(** The first [connect], with what [init] has done in it. *)
Lemma connect_new_runs (ks : string) w :
  state_ (session w) = SESSION_STATE_NEW →
  ∃ (rc : Z) (w2 : World (Address := Address)),
    request_future_queue_ (session w2)
    = Some {| capacity := Z.to_nat (queue_size_io (config_ (session w)));
              items := [] |}
    ∧ effects w2 = effects w
    ∧ connect new_IOWorker request_queue_init_rc event_queue_init_rc ks w
      = Returns (Some (heap_top w))
          (add_effects [uv_thread_create; uv_async_send]
             (with_session (set_keyspace_ ks) w2)).
Proof.
  intros Hnew. unfold connect. run_prims. cbn [state_ set_connect_future_].
  destruct (decide (state_ (session w) = SESSION_STATE_NEW)) as [_|Hne];
    [|contradiction].
  match goal with
  | |- context [init _ _ _ ?w1] =>
      destruct (init_request_queue w1)
        as (rc & w2 & Hrun & Hqueue & Hkeeps & Heffects & _)
  end.
  rewrite Hrun. cbn in Hqueue, Heffects.
  destruct Hkeeps as (_ & _ & Hfuture & _). cbn in Hfuture.
  exists rc, w2. split; [exact Hqueue|]. split; [exact Heffects|].
  unfold set_keyspace_ at 1. cbn [session connect_future_].
  rewrite Hfuture. unfold add_effects, with_session. cbn.
  rewrite <- app_assoc. reflexivity.
Qed.

(** X15: an [execute] that follows the first [connect] finds the
    request queue that [init] has created: the request is queued when
    the configured queue size is positive; with a queue size of zero it
    is failed with "request queue full" and destroyed. *)
Theorem execute_after_connect (ks : string) (r : ptr) w :
  state_ (session w) = SESSION_STATE_NEW →
  ∃ w',
    bind (connect new_IOWorker request_queue_init_rc event_queue_init_rc ks)
      (λ _, execute r) w
    = Returns () w'
    ∧ if bool_decide (0 < queue_size_io (config_ (session w)))%Z
      then
        request_future_queue_ (session w')
        = Some {| capacity := Z.to_nat (queue_size_io (config_ (session w)));
                  items := [r] |}
        ∧ effects w' = effects w ++ [uv_thread_create; uv_async_send]
      else
        request_future_queue_ (session w')
        = Some {| capacity := 0; items := [] |}
        ∧ effects w'
          = effects w ++ [uv_thread_create; uv_async_send;
                          set_error r queue_full_error; operator_delete r].
Proof.
  intros Hnew. unfold bind at 1.
  destruct (connect_new_runs ks w Hnew)
    as (rc & w2 & Hqueue & Heffects & Hrun).
  rewrite Hrun.
  unfold execute. run_prims. unfold set_keyspace_ at 1.
  cbn [with_session add_effects session request_future_queue_].
  rewrite Hqueue.
  unfold enqueue, queue_full. cbn [capacity items length].
  destruct (decide (0 < queue_size_io (config_ (session w)))%Z) as [Hsize|Hsize].
  - rewrite (bool_decide_eq_true_2 _ Hsize).
    rewrite bool_decide_eq_false_2 by lia. cbn [fst snd app].
    eexists. split; [reflexivity|]. cbn. rewrite Heffects.
    split; reflexivity.
  - rewrite (bool_decide_eq_false_2 _ Hsize).
    rewrite bool_decide_eq_true_2 by lia. cbn [fst snd].
    eexists. split; [reflexivity|]. cbn. rewrite Heffects, <- !app_assoc.
    replace (Z.to_nat (queue_size_io (config_ (session w)))) with 0 by lia.
    split; reflexivity.
Qed.

(** X16: [execute] of a statement returns the address of the request
    future it allocates.  When the request queue is full that request has
    just been failed and destroyed: the caller holds a pointer to a
    deleted object.  Otherwise the request is at the back of the queue. *)
Theorem statement_handle (statement : ptr) (q : AsyncQueue ptr) w :
  request_future_queue_ (session w) = Some q →
  let handle := S (heap_top w) in
  let w' :=
    if queue_full q then
      {| session := session w;
         effects := effects w ++ [set_error handle queue_full_error;
                                  operator_delete handle];
         heap_top := S handle |}
    else
      {| session := set_request_future_queue_
                      (Some {| capacity := capacity q;
                               items := items q ++ [handle] |}) (session w);
         effects := effects w;
         heap_top := S handle |} in
  execute_statement statement w = Returns handle w'.
Proof.
  intros Hq handle w'. subst handle w'.
  unfold execute_statement, execute. run_prims. rewrite Hq.
  unfold enqueue.
  destruct (queue_full q) eqn:Hfull; cbn [fst snd session effects heap_top].
  - rewrite (set_request_future_queue_same _ _ Hq), <- app_assoc.
    reflexivity.
  - reflexivity.
Qed.

(** ** Contact points and bootstrap *)

(** X17: [on_connect] on a session with no resolution outstanding adds
    the hosts of the literal contact points to the host set (a host named
    twice is there once), hands every other contact point to the
    resolver, once each and in the order of the configuration, and leaves
    their number in [pending_resolve_count_].  It bootstraps the pools
    there and then exactly when there is no name to resolve. *)
Theorem contact_points_classified w :
  pending_resolve_count_ (session w) = 0%Z →
  let seeds := contact_points (config_ (session w)) in
  let port_number := port (config_ (session w)) in
  let names := symbolic_names from_string seeds port_number in
  (Z.of_nat (length names) ≤ INT_MAX)%Z →
  ∃ w',
    on_connect from_string w = Returns () w'
    ∧ hosts_ (session w')
      = list_to_set (literal_hosts from_string seeds port_number)
        ∪ hosts_ (session w)
    ∧ pending_resolve_count_ (session w') = Z.of_nat (length names)
    ∧ effects w'
      = effects w
        ++ ((λ seed, Resolver_resolve seed port_number) <$> names)
        ++ (if names is [] then call_init_pools :: pool_requests (session w')
            else []).
Proof.
  intros Hpending seeds port_number names Hmax. unfold INT_MAX in Hmax.
  rewrite on_connect_runs by (rewrite Hpending; unfold INT_MIN, INT_MAX; lia).
  cbn zeta. fold seeds port_number.
  unfold seeded. fold names.
  unfold with_session, add_effects. cbn [session effects heap_top].
  cbn [pending_resolve_count_ set_pending_resolve_count_]. rewrite Hpending.
  rewrite wrap_int_small by (unfold INT_MIN, INT_MAX; lia). cbn [Z.add].
  destruct (decide (Z.of_nat (length names) = 0%Z)) as [Hzero|Hsome].
  - destruct names as [|name names']; [|cbn in Hzero; lia].
    rewrite init_pools_runs. eexists. split; [reflexivity|].
    cbn. rewrite app_nil_r. repeat split.
  - destruct names as [|name names']; [cbn in Hsome; lia|].
    eexists. split; [reflexivity|]. cbn. rewrite app_nil_r. repeat split.
Qed.

(** X18: in a connect attempt (on a session with no resolution
    outstanding, followed by the callbacks of at most as many resolutions
    as it has issued) the pools are bootstrapped at most once, and they
    are bootstrapped exactly when every resolution issued has completed
    and all of them with success. *)
Theorem bootstrap_at_most_once (completions : list Resolver) w :
  pending_resolve_count_ (session w) = 0%Z →
  let names := symbolic_names from_string (contact_points (config_ (session w)))
                 (port (config_ (session w))) in
  (Z.of_nat (length names) ≤ INT_MAX)%Z →
  length completions ≤ length names →
  ∃ w',
    attempt from_string completions w = Returns () w'
    ∧ init_pools_calls w' ≤ init_pools_calls w + 1
    ∧ (init_pools_calls w' = init_pools_calls w + 1
       ↔ length completions = length names
         ∧ Forall (λ r, is_success r = true) completions).
Proof.
  intros Hpending names Hmax Hlen.
  destruct (attempt_bootstraps from_string completions w Hpending Hmax Hlen)
    as (w' & Hrun & Hcalls).
  fold names in Hcalls.
  exists w'. split; [exact Hrun|]. rewrite Hcalls.
  destruct (forallb is_success completions) eqn:Hall;
    destruct (Nat.eqb_spec (length completions) (length names)) as [Heq|Hne];
    cbn [andb].
  - split; [lia|]. split; [|reflexivity]. intros _. split; [exact Heq|].
    apply Forall_forall. intros r Hr.
    rewrite forallb_forall in Hall. apply Hall, list_elem_of_In, Hr.
  - split; [lia|]. split; [lia|]. intros [Heq _]. contradiction.
  - split; [lia|]. split; [lia|]. intros [_ Hsucc]. exfalso.
    assert (Htrue : forallb is_success completions = true).
    { apply forallb_forall. intros r Hr.
      rewrite Forall_forall in Hsucc. apply Hsucc, list_elem_of_In, Hr. }
    congruence.
  - split; [lia|]. split; [lia|]. intros [Heq _]. contradiction.
Qed.

(** X19: a connect attempt without contact points bootstraps at once,
    with nothing to connect to: the counter of outstanding connections is
    zero, no pool is asked for, and the session is not READY.  CONNECTED
    events that arrive afterwards (fewer than 2^32) do not make it READY
    and do not resolve the connect future. *)
Theorem no_contact_points_never_ready (cap : nat) (events : list Payload) w :
  contact_points (config_ (session w)) = [] →
  hosts_ (session w) = ∅ →
  pending_resolve_count_ (session w) = 0%Z →
  Forall (λ p, type p = ON_CONNECTED) events →
  (Z.of_nat (length events) < 2 ^ 32)%Z →
  ∃ w1 w2,
    on_connect from_string w = Returns () w1
    ∧ pending_connections_count_ (session w1) = 0%Z
    ∧ effects w1 = effects w ++ [call_init_pools]
    ∧ on_event (with_session
                  (set_event_queue_
                     (Some {| capacity := cap; items := events |})) w1)
      = Returns () w2
    ∧ state_ (session w2) = state_ (session w)
    ∧ connect_future_ (session w2) = connect_future_ (session w)
    ∧ effects w2 = effects w1.
Proof.
  intros Hseeds Hhosts Hpending Hevents Hfew.
  rewrite on_connect_runs by (rewrite Hpending; unfold INT_MIN, INT_MAX; lia).
  rewrite Hseeds. cbn zeta. unfold seeded, symbolic_names, literal_hosts.
  cbn [filter list_filter omap list_omap fmap list_fmap length list_to_set].
  unfold with_session, add_effects. cbn [session effects heap_top].
  cbn [pending_resolve_count_ set_pending_resolve_count_]. rewrite Hpending.
  change (wrap_int (0 + Z.of_nat 0)) with 0%Z.
  destruct (decide (0 = 0)%Z) as [_|Hne]; [|contradiction].
  rewrite init_pools_runs.
  eexists. eexists. split; [reflexivity|].
  assert (Hnone : pool_requests
                    (set_pending_resolve_count_ 0
                       (set_hosts_ (∅ ∪ hosts_ (session w)) (session w)))
                  = []).
  { unfold pool_requests, hosts_in_order.
    cbn [hosts_ set_pending_resolve_count_ set_hosts_].
    rewrite Hhosts, (left_id_L ∅ (∪)), elements_empty. reflexivity. }
  split; [|split; [|split; [|split; [|split]]]].
  - cbn. rewrite Hhosts, (left_id_L ∅ (∪)), size_empty. reflexivity.
  - cbn [with_session add_effects effects session]. rewrite Hnone, app_nil_r.
    reflexivity.
  - eapply (on_event_countdown cap events 0); try reflexivity;
      [exact Hevents| |unfold INT_MIN, INT_MAX; lia|].
    + cbn. rewrite Hhosts, (left_id_L ∅ (∪)), size_empty. reflexivity.
    + intros j Hj. rewrite Z.sub_0_l. apply wrap_int_negative_nonzero. lia.
  - reflexivity.
  - reflexivity.
  - reflexivity.
Qed.

(** X20: a notification that finds the event queue full is dropped
    without a trace.  When the workers report all the connections that
    are outstanding but the queue holds fewer, the session loop counts
    the connections that got in and stops short of zero: the session is
    not READY and the connect future is not resolved. *)
Theorem lost_notifications_block_readiness (cap : nat) (hs : list Host) w :
  event_queue_ (session w) = Some {| capacity := cap; items := [] |} →
  pending_connections_count_ (session w) = Z.of_nat (length hs) →
  cap < length hs →
  (Z.of_nat (length hs) ≤ INT_MAX)%Z →
  ∃ w',
    bind (for_each hs notify_connect_q) (λ _, on_event) w = Returns () w'
    ∧ pending_connections_count_ (session w') = Z.of_nat (length hs - cap)
    ∧ state_ (session w') = state_ (session w)
    ∧ connect_future_ (session w') = connect_future_ (session w)
    ∧ effects w' = effects w.
Proof.
  intros Hq Hc Hlost Hmax. unfold INT_MAX in Hmax.
  unfold bind at 1. rewrite (for_each_notify_connect_q cap [] hs w Hq).
  cbn [app length]. rewrite Nat.sub_0_r.
  set (run := take cap _).
  assert (Hlen : length run = cap).
  { subst run. rewrite length_take, length_fmap. lia. }
  assert (Hrun : Forall (λ p, type p = ON_CONNECTED) run).
  { subst run. apply Forall_take, Forall_fmap, Forall_forall.
    intros h _. reflexivity. }
  eexists. split.
  { eapply (on_event_countdown cap run (Z.of_nat (length hs)));
      [reflexivity|exact Hrun|exact Hc|unfold INT_MIN, INT_MAX; lia|].
    intros j Hj. rewrite wrap_int_small; unfold INT_MIN, INT_MAX; lia. }
  cbn. rewrite Hlen.
  rewrite wrap_int_small by (unfold INT_MIN, INT_MAX; lia).
  repeat split. lia.
Qed.

End coverage.

(** * The rest of the session at concrete sessions *)

Lemma init_creates_queues_and_workers_witness :
  ∃ w', init (λ _, free_worker) 0 0 fresh_world = Returns 0%Z w'
        ∧ io_workers_ (session w') = [free_worker; free_worker; free_worker].
Proof.
  eexists. split.
  - apply (init_creates_queues_and_workers (λ _, free_worker) 0 0 fresh_world).
    + reflexivity.
    + reflexivity.
    + intros j Hj. reflexivity.
  - reflexivity.
Defined.

Lemma init_stops_at_failing_worker_witness :
  let workers := λ i, if (i =? 1)%nat then failing_worker else free_worker in
  ∃ w', init workers 0 0 fresh_world = Returns (-1)%Z w'
        ∧ io_workers_ (session w') = [free_worker].
Proof.
  intros workers.
  destruct (init_stops_at_failing_worker workers 0 0 1 fresh_world)
    as (w' & Hrun & Hworkers & _).
  - reflexivity.
  - reflexivity.
  - vm_compute. lia.
  - intros j Hj. assert (j = 0) as -> by lia. reflexivity.
  - discriminate.
  - exists w'. split; [exact Hrun|exact Hworkers].
Defined.

Lemma init_stops_at_failing_queue_witness :
  ∃ w', init (λ _, free_worker) (-1) 0 fresh_world = Returns (-1)%Z w'
        ∧ event_queue_ (session w') = None
        ∧ io_workers_ (session w') = [].
Proof.
  eexists. split.
  - apply (init_stops_at_failing_queue (λ _, free_worker) (-1) 0 fresh_world).
    discriminate.
  - split; reflexivity.
Defined.

Lemma connect_first_call_witness :
  ∃ w', connect (λ _, free_worker) 0 0 "ks" fresh_world = Returns (Some 0) w'
        ∧ state_ (session w') = SESSION_STATE_CONNECTING
        ∧ connect_future_ (session w') = Some 0.
Proof.
  destruct (connect_first_call (λ _, free_worker) 0 0 "ks" fresh_world)
    as (w' & Hrun & Hstate & Hfuture & _).
  - reflexivity.
  - exists w'. split; [exact Hrun|]. split; [exact Hstate|exact Hfuture].
Defined.

Lemma shutdown_accepted_witness :
  let w := world_of (example_session SESSION_STATE_READY []
                       [free_worker; free_worker] [] 0) in
  ∃ w', shutdown w = Returns (Some 1) w'
        ∧ effects w' = [shutdown_q 0; shutdown_q 1].
Proof.
  intros w. eexists. split.
  - apply (shutdown_accepted w). left. reflexivity.
  - reflexivity.
Defined.


Lemma shutdown_waits_for_every_worker_witness :
  ∃ w', on_event (disconnecting [done_worker; free_worker]
                    [shutdown_event; shutdown_event])
        = Returns () w'
        ∧ state_ (session w') = SESSION_STATE_DISCONNECTING
        ∧ effects w' = [IOWorker_join 0; IOWorker_join 0].
Proof.
  eexists. split.
  - apply (shutdown_waits_for_every_worker 8 [shutdown_event; shutdown_event]
             (disconnecting [done_worker; free_worker]
                [shutdown_event; shutdown_event])).
    + reflexivity.
    + repeat constructor.
    + right. left. reflexivity.
  - split; reflexivity.
Defined.

Lemma second_connect_breaks_readiness_witness :
  ∃ w',
    bind (connect (λ _, free_worker) 0 0 "ks") (λ _, on_event) awaiting_two
    = Undefined null_dereference w'
    ∧ state_ (session w') = SESSION_STATE_READY.
Proof.
  destruct (second_connect_breaks_readiness (λ _, free_worker) 0 0 "ks" 8
              [connected "127.0.0.1"; connected "127.0.0.2"] awaiting_two)
    as (w' & Hrun & Hstate & _).
  - discriminate.
  - reflexivity.
  - repeat constructor.
  - reflexivity.
  - simpl. lia.
  - vm_compute. discriminate.
  - exists w'. split; [exact Hrun|exact Hstate].
Defined.

Lemma readiness_overrides_shutdown_witness :
  ∃ w',
    bind shutdown (λ _, on_event) awaiting_two = Returns () w'
    ∧ state_ (session w') = SESSION_STATE_READY
    ∧ shutdown_future_ (session w') = Some 1.
Proof.
  destruct (readiness_overrides_shutdown 8
              [connected "127.0.0.1"; connected "127.0.0.2"] 0 awaiting_two)
    as (w' & Hrun & Hstate & Hfuture & _).
  - reflexivity.
  - reflexivity.
  - repeat constructor.
  - reflexivity.
  - simpl. lia.
  - vm_compute. discriminate.
  - reflexivity.
  - exists w'. split; [exact Hrun|]. split; [exact Hstate|exact Hfuture].
Defined.

Lemma second_shutdown_breaks_completion_witness :
  ∃ w',
    bind shutdown (λ _, on_event)
      (disconnecting [done_worker; done_worker] [shutdown_event])
    = Undefined null_dereference w'
    ∧ state_ (session w') = SESSION_STATE_DISCONNECTING.
Proof.
  destruct (second_shutdown_breaks_completion 8 shutdown_event
              (disconnecting [done_worker; done_worker] [shutdown_event]))
    as (w' & Hrun & Hstate & _).
  - reflexivity.
  - reflexivity.
  - reflexivity.
  - repeat constructor.
  - exists w'. split; [exact Hrun|exact Hstate].
Defined.

Lemma round_robin_when_all_accept_witness :
  let w := world_of (example_session SESSION_STATE_READY []
                       [free_worker; free_worker] [7; 8] 1) in
  ∃ w', on_execute w = Returns () w'
        ∧ effects w' = [new_query_plan 7; IOWorker_execute 1 7 true;
                        new_query_plan 8; IOWorker_execute 0 8 true]
        ∧ current_io_worker_ (session w') = 1%Z.
Proof.
  intros w.
  destruct (round_robin_when_all_accept 2 [7; 8] 1 w)
    as (w' & Hrun & Heffects & _ & _ & Hcursor & _).
  - reflexivity.
  - reflexivity.
  - simpl. lia.
  - repeat constructor.
  - vm_compute. discriminate.
  - exists w'. split; [exact Hrun|]. split; [exact Heffects|exact Hcursor].
Defined.

Lemma first_free_worker_gets_request_witness :
  let w := world_of (example_session SESSION_STATE_READY []
                       [busy_worker; busy_worker; free_worker] [] 1) in
  ∃ w', on_execute_request 7 w = Returns () w'
        ∧ effects w' = [new_query_plan 7; IOWorker_execute 1 7 false;
                        IOWorker_execute 2 7 true]
        ∧ current_io_worker_ (session w') = 0%Z.
Proof.
  intros w. eexists. split.
  - apply (first_free_worker_gets_request 7 1 2 free_worker w).
    + reflexivity.
    + lia.
    + intros i y Hi Hy. assert (i = 1) as -> by lia.
      injection Hy as <-. reflexivity.
    + reflexivity.
    + reflexivity.
    + vm_compute. discriminate.
  - split; reflexivity.
Defined.

Lemma probe_runs_past_end_witness :
  let w := world_of (example_session SESSION_STATE_READY []
                       [free_worker; busy_worker] [7; 8] 1) in
  ∃ w', on_execute w = Undefined (out_of_range 2 2) w'
        ∧ effects w' = [new_query_plan 7; IOWorker_execute 1 7 false]
        ∧ request_future_queue_ (session w')
          = Some {| capacity := 2; items := [8] |}.
Proof.
  intros w. eexists. split.
  - apply (probe_runs_past_end 2 7 [8] 1 w).
    + reflexivity.
    + reflexivity.
    + simpl. lia.
    + intros i y Hi Hy. destruct i as [|[|i]]; [lia| |discriminate Hy].
      injection Hy as <-. reflexivity.
    + vm_compute. reflexivity.
  - split; reflexivity.
Defined.

Lemma execute_then_dispatch_in_order_witness :
  let w := world_of (example_session SESSION_STATE_READY []
                       [free_worker; free_worker] [] 0) in
  ∃ w',
    bind (for_each [7; 8; 9] execute) (λ _, on_execute) w = Returns () w'
    ∧ effects w' = [set_error 9 queue_full_error; operator_delete 9;
                    new_query_plan 7; IOWorker_execute 0 7 true;
                    new_query_plan 8; IOWorker_execute 1 8 true].
Proof.
  intros w.
  destruct (execute_then_dispatch_in_order 2 [7; 8] [9] 0 w)
    as (w' & Hrun & Heffects & _).
  - reflexivity.
  - simpl. lia.
  - right. reflexivity.
  - reflexivity.
  - simpl. lia.
  - repeat constructor.
  - vm_compute. discriminate.
  - exists w'. split; [exact Hrun|exact Heffects].
Defined.

Lemma execute_after_connect_witness :
  ∃ w',
    bind (connect (λ _, free_worker) 0 0 "ks") (λ _, execute 7) fresh_world
    = Returns () w'
    ∧ request_future_queue_ (session w')
      = Some {| capacity := 2; items := [7] |}.
Proof.
  destruct (execute_after_connect (λ _, free_worker) 0 0 "ks" 7 fresh_world)
    as (w' & Hrun & Hqueue & _).
  - reflexivity.
  - exists w'. split; [exact Hrun|exact Hqueue].
Defined.

Lemma statement_handle_witness :
  let w := world_of (example_session SESSION_STATE_READY []
                       [free_worker] [5; 6] 0) in
  execute_statement 3 w
  = Returns 2
      {| session := session w;
         effects := [set_error 2 queue_full_error; operator_delete 2];
         heap_top := 3 |}.
Proof.
  intros w.
  apply (statement_handle 3 {| capacity := 2; items := [5; 6] |} w).
  reflexivity.
Defined.

Lemma contact_points_classified_witness :
  let w := world_of (example_session SESSION_STATE_CONNECTING
                       ["127.0.0.1"; "cassandra1.example.com"]
                       [free_worker] [] 0) in
  ∃ w', on_connect example_from_string w = Returns () w'
        ∧ hosts_ (session w') = {[ Build_Host "127.0.0.1" ]} ∪ ∅ ∪ ∅
        ∧ pending_resolve_count_ (session w') = 1%Z
        ∧ effects w' = [Resolver_resolve "cassandra1.example.com" 9042].
Proof.
  intros w.
  destruct (contact_points_classified example_from_string w)
    as (w' & Hrun & Hhosts & Hpending & Heffects).
  - reflexivity.
  - vm_compute. discriminate.
  - exists w'. split; [exact Hrun|]. split; [exact Hhosts|].
    split; [exact Hpending|exact Heffects].
Defined.

Lemma bootstrap_at_most_once_witness :
  let w := world_of (example_session SESSION_STATE_CONNECTING
                       ["127.0.0.1"; "cassandra1.example.com"]
                       [free_worker] [] 0) in
  ∃ w',
    attempt example_from_string
      [resolved "cassandra1.example.com" (Some "10.0.0.1")] w
    = Returns () w'
    ∧ init_pools_calls w' ≤ init_pools_calls w + 1.
Proof.
  intros w.
  destruct (bootstrap_at_most_once example_from_string
              [resolved "cassandra1.example.com" (Some "10.0.0.1")] w)
    as (w' & Hrun & Hcalls & _).
  - reflexivity.
  - vm_compute. discriminate.
  - vm_compute. lia.
  - exists w'. split; [exact Hrun|exact Hcalls].
Defined.

Lemma no_contact_points_never_ready_witness :
  let w := world_of (example_session SESSION_STATE_CONNECTING []
                       [free_worker] [] 0) in
  ∃ w1 w2,
    on_connect example_from_string w = Returns () w1
    ∧ pending_connections_count_ (session w1) = 0%Z
    ∧ on_event (with_session
                  (set_event_queue_
                     (Some {| capacity := 8;
                              items := [connected "127.0.0.1"] |})) w1)
      = Returns () w2
    ∧ state_ (session w2) = SESSION_STATE_CONNECTING.
Proof.
  intros w.
  destruct (no_contact_points_never_ready example_from_string 8
              [connected "127.0.0.1"] w)
    as (w1 & w2 & Hrun1 & Hcount & _ & Hrun2 & Hstate & _).
  - reflexivity.
  - reflexivity.
  - reflexivity.
  - repeat constructor.
  - vm_compute. reflexivity.
  - exists w1, w2. split; [exact Hrun1|]. split; [exact Hcount|].
    split; [exact Hrun2|exact Hstate].
Defined.

Lemma lost_notifications_block_readiness_witness :
  let w := with_session
             (λ s, set_event_queue_ (Some {| capacity := 1; items := [] |})
                     (set_pending_connections_count_ 2 s))
             (world_of (example_session SESSION_STATE_CONNECTING []
                          [free_worker] [] 0)) in
  ∃ w',
    bind (for_each [Build_Host "127.0.0.1"; Build_Host "127.0.0.2"]
            notify_connect_q) (λ _, on_event) w
    = Returns () w'
    ∧ pending_connections_count_ (session w') = 1%Z
    ∧ state_ (session w') = SESSION_STATE_CONNECTING.
Proof.
  intros w.
  destruct (lost_notifications_block_readiness 1
              [Build_Host "127.0.0.1"; Build_Host "127.0.0.2"] w)
    as (w' & Hrun & Hcount & Hstate & _).
  - reflexivity.
  - reflexivity.
  - simpl. lia.
  - vm_compute. discriminate.
  - exists w'. split; [exact Hrun|]. split; [exact Hcount|exact Hstate].
Defined.
